(** * bokehfun: data sources and figure elements for the interactive
      pixel-file viewer

    A shallow embedding of [bokehfun.py] and the properties of its three
    builders and of the stretch-slider callback.

    Conventions of the embedding.
    - A numpy [float64] value is a [float]: NaN, an infinity, or a finite
      value carried as an exact real; NaN and the infinities propagate the
      way numpy propagates them.  Sums are exact, so the properties that
      rest on them are stated where the floating-point unit does not round;
      the module [Binary64] evaluates the same sums on machine floats.  A
      power of ten that leaves the range of floats raises or vanishes, see
      [pow10].
    - numpy integers and Python integers are [Z]; array sizes are [nat].
    - A numpy array is its shape together with its C-contiguous (row-major)
      buffer, see [ndarray].
    - Python exceptions are values of [exn]; a function that can raise
      returns in the error monad [py].
    - The collaborators that live outside the module (astropy's ISO
      formatter, numpy's percentile and [log10]) are section variables.
      bokeh's check of the slider ends is the predicate
      [slider_accepted]. *)

From Stdlib Require Import String Ascii ZArith Arith Bool Lia List Sorted.
From Stdlib Require Import Reals Lra.
From Stdlib Require Floats.PrimFloat Uint63.
From ExtLib Require Import Structures.Monad Structures.MonadExc.
From ExtLib Require Import Data.Monads.EitherMonad.
Import ListNotations.
Import MonadNotation.

Set Implicit Arguments.

Local Open Scope monad_scope.
Local Open Scope string_scope.
Local Open Scope list_scope.
Local Open Scope nat_scope.

(** ** Python exceptions and the error monad *)

Inductive exn : Type :=
| NameError (name : string)
| AttributeError (attr : string)
| IndexError
| ValueError
| TypeError
| OverflowError.

Definition py (A : Type) : Type := sum exn A.

#[global] Instance Monad_py : Monad py := Monad_either exn.

Definition Ok {A : Type} (a : A) : py A := inr a.
Definition Raise {A : Type} (e : exn) : py A := inl e.

(** ** Floating-point values *)

Inductive float : Type :=
| NaN
| NInf
| PInf
| Fin (r : R).

Definition is_nan (x : float) : bool :=
  match x with NaN => true | _ => false end.

(** [x == y] on floats: NaN differs from everything, itself included. *)
Definition float_eqb (x y : float) : bool :=
  match x, y with
  | NInf, NInf => true
  | PInf, PInf => true
  | Fin a, Fin b => if Req_dec_T a b then true else false
  | _, _ => false
  end.

Definition float_neg (x : float) : float :=
  match x with
  | NaN => NaN
  | NInf => PInf
  | PInf => NInf
  | Fin a => Fin (- a)
  end.

Definition float_add (x y : float) : float :=
  match x, y with
  | NaN, _ | _, NaN => NaN
  | PInf, NInf | NInf, PInf => NaN
  | PInf, _ | _, PInf => PInf
  | NInf, _ | _, NInf => NInf
  | Fin a, Fin b => Fin (a + b)
  end.

Definition float_sub (x y : float) : float := float_add x (float_neg y).

(** [x / d] for a finite positive literal [d] (the source divides by
    [300.0] only). *)
Definition float_div_lit (x : float) (d : R) : float :=
  match x with
  | Fin a => Fin (a / d)
  | other => other
  end.

(** The order of the non-NaN values. *)
Definition float_le (x y : float) : Prop :=
  match x, y with
  | NaN, _ | _, NaN => False
  | NInf, _ => True
  | _, PInf => True
  | Fin a, Fin b => (a <= b)%R
  | _, _ => False
  end.

(** numpy's [fmin]: the smaller of the two, ignoring a NaN operand. *)
Definition float_fmin (x y : float) : float :=
  match x, y with
  | NaN, _ => y
  | _, NaN => x
  | NInf, _ | _, NInf => NInf
  | PInf, _ => y
  | _, PInf => x
  | Fin a, Fin b => Fin (Rmin a b)
  end.

Definition is_inf (x : float) : bool :=
  match x with NInf | PInf => true | _ => false end.

(** The real numbers that round to an infinity (from [float_max_bound] on)
    and to zero (up to [float_min_bound]) in binary64. *)
Definition float_max_bound : R := 2 ^ 1024 - 2 ^ 970.
Definition float_min_bound : R := / 2 ^ 1075.

(** Python's [10 ** x] on floats: the power of ten, [OverflowError] when it
    is too large for a float, zero when it is too small.  Within the range
    of floats the value is the real power; its rounding is not modelled. *)
Definition pow10 (x : float) : py float :=
  match x with
  | NaN => Ok NaN
  | PInf => Ok PInf
  | NInf => Ok (Fin 0)
  | Fin r =>
      if Rle_dec float_max_bound (Rpower 10 r) then Raise OverflowError
      else if Rle_dec (Rpower 10 r) float_min_bound then Ok (Fin 0)
      else Ok (Fin (Rpower 10 r))
  end.

(** ** numpy arrays

    [shape] is the tuple of dimensions and [data] the row-major buffer; a
    well-formed array has [length data = size]. *)

Record ndarray (A : Type) : Type := mk_ndarray {
  shape : list nat;
  data : list A
}.

Definition prod_shape (s : list nat) : nat := fold_right Nat.mul 1 s.

Definition size {A : Type} (a : ndarray A) : nat := prod_shape (shape a).

Definition well_formed {A : Type} (a : ndarray A) : Prop :=
  length (data a) = size a.

Definition nd_map {A B : Type} (f : A -> B) (a : ndarray A) : ndarray B :=
  {| shape := shape a; data := map f (data a) |}.

(** [a[k]] (also written [a[k, :, :]]): the [k]-th sub-array along the first
    axis; a negative [k] counts from the end. *)
Definition nd_index0 {A : Type} (a : ndarray A) (k : Z) : py (ndarray A) :=
  match shape a with
  | [] => Raise IndexError
  | d :: rest =>
      if ((- Z.of_nat d <=? k) && (k <? Z.of_nat d))%Z then
        let k' := Z.to_nat (if (k <? 0)%Z then k + Z.of_nat d else k) in
        let n := prod_shape rest in
        Ok {| shape := rest; data := firstn n (skipn (k' * n) (data a)) |}
      else Raise IndexError
  end.

(** [a[None, :, :]]: [None] is [numpy.newaxis], the slices keep every axis. *)
Definition nd_newaxis {A : Type} (a : ndarray A) : ndarray A :=
  {| shape := 1 :: shape a; data := data a |}.

(** [np.arange(0, n, 1)]. *)
Definition np_arange (n : nat) : ndarray Z :=
  {| shape := [n]; data := map Z.of_nat (seq 0 n) |}.

Definition shape_eqb (s t : list nat) : bool :=
  if list_eq_dec Nat.eq_dec s t then true else false.

(** [a.reshape(s)]. *)
Definition nd_reshape {A : Type} (a : ndarray A) (s : list nat)
  : py (ndarray A) :=
  if prod_shape s =? size a then Ok {| shape := s; data := data a |}
  else Raise ValueError.

(** [a.reshape(-1)]. *)
Definition nd_ravel {A : Type} (a : ndarray A) : ndarray A :=
  {| shape := [size a]; data := data a |}.

Definition tolist {A : Type} (a : ndarray A) : list A := data a.

Fixpoint select_true {A : Type} (xs : list A) (ms : list bool) : list A :=
  match xs, ms with
  | x :: xs', m :: ms' =>
      if m then x :: select_true xs' ms' else select_true xs' ms'
  | _, _ => []
  end.

(** [a[mask]] for a boolean array [mask] of the shape of [a]: the elements
    under a true cell, in row-major order.  Another shape is an
    [IndexError]; numpy's leniency towards a mask with fewer axes or with
    an axis of length zero is not modelled. *)
Definition nd_mask_select {A : Type} (a : ndarray A) (mask : ndarray bool)
  : py (ndarray A) :=
  if shape_eqb (shape a) (shape mask) then
    let picked := select_true (data a) (data mask) in
    Ok {| shape := [length picked]; data := picked |}
  else Raise IndexError.

(** [np.meshgrid(xx, yy)] for one-dimensional [xx] and [yy]. *)
Definition np_meshgrid {A : Type} (xx yy : ndarray A)
  : ndarray A * ndarray A :=
  let nx := length (data xx) in
  let ny := length (data yy) in
  ({| shape := [ny; nx]; data := flat_map (fun _ => data xx) (data yy) |},
   {| shape := [ny; nx]; data := flat_map (fun y => repeat y nx) (data yy) |}).

(** [a[i, j]] of a two-dimensional array. *)
Definition nd_get2 {A : Type} (a : ndarray A) (i j : nat) : option A :=
  match shape a with
  | [r; c] => if (i <? r) && (j <? c) then nth_error (data a) (i * c + j)
              else None
  | _ => None
  end.

(** [np.nanmin(a)]: the minimum ignoring NaN; NaN when every entry is NaN;
    an empty array has no minimum. *)
Definition np_nanmin (a : ndarray float) : py float :=
  match data a with
  | [] => Raise ValueError
  | x :: xs => Ok (fold_left float_fmin xs x)
  end.

(** ** Python values and name resolution *)

(** Header values of a pixel file: [None], an integer or a string. *)
Inductive pyval : Type :=
| PyNone
| PyInt (z : Z)
| PyStr (s : string).

Definition digit_char (d : Z) : ascii := ascii_of_nat (48 + Z.to_nat d).

Fixpoint digits_of (fuel : nat) (n : Z) (acc : string) : string :=
  match fuel with
  | O => acc
  | S fuel' =>
      let acc' := String (digit_char (n mod 10)) acc in
      if (n <? 10)%Z then acc' else digits_of fuel' (n / 10)%Z acc'
  end.

(** [str(z)] of a Python integer. *)
Definition str_of_int (z : Z) : string :=
  let n := Z.abs z in
  let ds := digits_of (S (Z.to_nat (Z.log2 n))) n EmptyString in
  if (z <? 0)%Z then String "-" ds else ds.

(** What a replacement field [{}] of [str.format] prints. *)
Definition format_field (v : pyval) : string :=
  match v with
  | PyNone => "None"
  | PyInt z => str_of_int z
  | PyStr s => s
  end.

(** [v == s] for a string literal [s]. *)
Definition pyval_eq_str (v : pyval) (s : string) : bool :=
  match v with
  | PyStr t => String.eqb t s
  | _ => false
  end.

(** Objects a global name of the module can be bound to.  The only object
    whose behaviour matters here is a quality-flag class, with its [decode]
    method; every other binding is opaque. *)
Inductive pyobject : Type :=
| Opaque
| QualityFlags (decode : Z -> list string).

Definition namespace : Type := list (string * pyobject).

Fixpoint lookup (g : namespace) (name : string) : option pyobject :=
  match g with
  | [] => None
  | (n, o) :: g' => if String.eqb n name then Some o else lookup g' name
  end.

(** Loading a global name: [NameError] when the name is unbound. *)
Definition load_global (g : namespace) (name : string) : py pyobject :=
  match lookup g name with
  | Some o => Ok o
  | None => Raise (NameError name)
  end.

(** [obj.decode]. *)
Definition getattr_decode (o : pyobject) : py (Z -> list string) :=
  match o with
  | QualityFlags decode => Ok decode
  | Opaque => Raise (AttributeError "decode")
  end.

(** The names the module binds: its imports (lines 2-12) and its three
    functions.  No statement of the module binds [KeplerQualityFlags]. *)
Definition module_names : list string :=
  [ "bokeh"; "show"; "output_notebook"; "push_notebook";
    "figure"; "ColumnDataSource";
    "LogColorMapper"; "Selection"; "Slider"; "RangeSlider";
    "Span"; "ColorBar"; "LogTicker"; "Range1d";
    "layout"; "Spacer"; "HoverTool"; "Button"; "Div";
    "PrintfTickFormatter"; "np";
    "prepare_lightcurve_datasource"; "prepare_tpf_datasource";
    "make_tpf_figure_elements" ].

Definition module_globals : namespace :=
  map (fun n => (n, Opaque)) module_names.

(** ** The tool-tip table of a light curve *)

Record LightCurve : Type := {
  lc_time : list float;
  lc_flux : list float;
  lc_cadenceno : list Z;
  lc_quality : list Z
}.

(** The [ColumnDataSource] returned by [prepare_lightcurve_datasource]. *)
Record LightCurveSource : Type := {
  time : list float;
  time_iso : list string;
  flux : list float;
  cadence : list Z;
  quality_code : list Z;
  quality : list string
}.

(** Element-wise [xs == ys] and [.all()]. *)
Definition np_equal (xs ys : list float) : list bool :=
  map (fun p => float_eqb (fst p) (snd p)) (combine xs ys).

Definition np_all (bs : list bool) : bool := forallb (fun b => b) bs.

(** The body of the loop over [lc.quality] (lines 35-41), one bitmask. *)
Definition append_flag_string (flag_str_list : list string)
    (qual_strings : list string) : list string :=
  let q0 := if length flag_str_list =? 0
            then qual_strings ++ [" "] else qual_strings in
  let q1 := if length flag_str_list =? 1
            then q0 ++ [hd "" flag_str_list] else q0 in
  if 1 <? length flag_str_list
  then q1 ++ [String.concat "; " flag_str_list] else q1.

(** Lines 34-41: the name [KeplerQualityFlags] is looked up in [g] each
    time the loop body runs. *)
Fixpoint quality_loop (g : namespace) (bitmasks : list Z)
    (qual_strings : list string) : py (list string) :=
  match bitmasks with
  | [] => ret qual_strings
  | bitmask :: rest =>
      cls <- load_global g "KeplerQualityFlags" ;;
      decode <- getattr_decode cls ;;
      quality_loop g rest (append_flag_string (decode bitmask) qual_strings)
  end.

Section LightCurveSource.

(** [astropy]'s ISO-8601 rendering of one time value
    ([lc.astropy_time.isot] is this conversion applied to [lc.time]). *)
Variable isot : float -> string.

(** [lc.astropy_time.isot]: the conversion rejects infinite times with
    [ValueError]. *)
Definition astropy_isot (times : list float) : py (list string) :=
  if existsb is_inf times then Raise ValueError
  else Ok (map isot times).

Definition prepare_lightcurve_datasource (g : namespace) (lc : LightCurve)
  : py LightCurveSource :=
  human_time <-
    (if np_all (np_equal (lc_time lc) (lc_time lc))
     then astropy_isot (lc_time lc)
     else ret (repeat " " (length (lc_flux lc)))) ;;
  qual_strings <- quality_loop g (lc_quality lc) [] ;;
  ret {| time := lc_time lc;
         time_iso := human_time;
         flux := lc_flux lc;
         cadence := lc_cadenceno lc;
         quality_code := lc_quality lc;
         quality := qual_strings |}.

End LightCurveSource.

(** ** The pixel overlay of a target pixel file *)

Record TargetPixelFile : Type := {
  tpf_flux : ndarray float;
  tpf_column : Z;
  tpf_row : Z;
  tpf_mission : pyval;
  tpf_module : pyval;
  tpf_output : pyval;
  tpf_camera : pyval;
  tpf_ccd : pyval
}.

(** [tpf.shape] is the shape of the flux cube. *)
Definition tpf_shape (tpf : TargetPixelFile) : list nat :=
  shape (tpf_flux tpf).

(** [t[i]] on a tuple. *)
Definition tuple_get (t : list nat) (i : nat) : py nat :=
  match nth_error t i with
  | Some d => Ok d
  | None => Raise IndexError
  end.

(** [a[i, :, :]]: three indices need at least three axes. *)
Definition nd_frame {A : Type} (a : ndarray A) (i : option Z)
  : py (ndarray A) :=
  match i with
  | None => if length (shape a) <? 2 then Raise IndexError
            else Ok (nd_newaxis a)
  | Some k => if length (shape a) <? 3 then Raise IndexError
              else nd_index0 a k
  end.

Record Selection : Type := { indices : list Z }.

(** [Selection()]: nothing selected. *)
Definition Selection_new : Selection := {| indices := [] |}.

(** [sel.indices = l] (line 72). *)
Definition set_indices (sel : Selection) (l : list Z) : Selection :=
  {| indices := l |}.

(** The [ColumnDataSource] returned by [prepare_tpf_datasource]. *)
Record PixelSource : Type := {
  xx : ndarray float;
  yy : ndarray float;
  selected : Selection
}.

(** [a + 0.5] on an integer array.  The sum is exact; it is the float64
    sum for entries up to [2^52] in magnitude, see [Binary64.centre]. *)
Definition add_half (a : ndarray Z) : ndarray float :=
  nd_map (fun v => Fin (IZR v + 0.5)) a.

Definition prepare_tpf_datasource (tpf : TargetPixelFile)
    (aperture_mask : ndarray bool) : py PixelSource :=
  frame0 <- nd_frame (tpf_flux tpf) (Some 0%Z) ;;
  let npix := size frame0 in
  first <- nd_index0 (tpf_flux tpf) 0 ;;
  pixel_index_array <- nd_reshape (np_arange npix) (shape first) ;;
  ncols <- tuple_get (tpf_shape tpf) 2 ;;
  let xx0 := nd_map (fun k => (tpf_column tpf + k)%Z) (np_arange ncols) in
  nrows <- tuple_get (tpf_shape tpf) 1 ;;
  let yy0 := nd_map (fun k => (tpf_row tpf + k)%Z) (np_arange nrows) in
  let (xa, ya) := np_meshgrid xx0 yy0 in
  picked <- nd_mask_select pixel_index_array aperture_mask ;;
  let preselected :=
    set_indices Selection_new (tolist (nd_ravel picked)) in
  ret {| xx := add_half xa; yy := add_half ya; selected := preselected |}.

Definition example_tpf : TargetPixelFile :=
  {| tpf_flux := {| shape := [1; 2; 3];
                    data := map (fun z => Fin (IZR z)) [1; 2; 3; 4; 5; 6]%Z |};
     tpf_column := 10; tpf_row := 20;
     tpf_mission := PyStr "TESS";
     tpf_module := PyNone; tpf_output := PyNone;
     tpf_camera := PyInt 1; tpf_ccd := PyInt 4 |}.

Definition example_mask : ndarray bool :=
  {| shape := [2; 3]; data := [true; false; true; false; true; false] |}.

(** ** The figure and the stretch slider *)

Record LogColorMapper : Type := {
  palette : string;
  low : float;
  high : float
}.

(** Glyphs of the figure.  The image glyph holds a reference to its colour
    mapper: the mapper is one object, shared with the colour bar, and lives
    in the store of the figure ([mappers]). *)
Inductive Glyph : Type :=
| Image (image : list (ndarray float)) (x y : Z) (dw dh : nat)
        (dilate : bool) (color_mapper : nat)
| Rect (x y : string) (width height : Z) (source : PixelSource)
       (fill_color : string) (fill_alpha : R) (line_color : string).

Record GlyphRenderer : Type := {
  name : option string;
  glyph : Glyph
}.

Record ColorBar : Type := {
  cb_color_mapper : nat;
  cb_desired_num_ticks : Z;
  cb_label_standoff : Z;
  cb_location : Z * Z;
  cb_background_fill_color : string;
  cb_major_label_text_align : string;
  cb_major_label_text_baseline : string;
  cb_title : string;
  cb_margin : Z;
  cb_formatter : string
}.

Record Figure : Type := {
  plot_width : Z;
  plot_height : Z;
  x_range : Z * Z;
  y_range : Z * Z;
  title : string;
  tools : string;
  toolbar_location : string;
  border_fill_color : string;
  yaxis_label : string;
  xaxis_label : string;
  renderers : list GlyphRenderer;
  right : list ColorBar;
  mappers : list LogColorMapper
}.

(** [fig.select(nm)]: the renderers called [nm]. *)
Definition select (fig : Figure) (nm : string) : list GlyphRenderer :=
  filter (fun r => match name r with
                   | Some n => String.eqb n nm
                   | None => false
                   end) (renderers fig).

(** [rs[0]]. *)
Definition first_of {A : Type} (rs : list A) : py A :=
  match rs with
  | r :: _ => Ok r
  | [] => Raise IndexError
  end.

(** [g.color_mapper]. *)
Definition glyph_color_mapper (g : Glyph) : py nat :=
  match g with
  | Image _ _ _ _ _ _ cm => Ok cm
  | Rect _ _ _ _ _ _ _ _ => Raise (AttributeError "color_mapper")
  end.

Fixpoint update_at {A : Type} (l : list A) (i : nat) (f : A -> A) : list A :=
  match l, i with
  | [], _ => []
  | a :: l', O => f a :: l'
  | a :: l', S i' => a :: update_at l' i' f
  end.

(** Assignment to an attribute of the mapper behind reference [cm]. *)
Definition set_mapper (fig : Figure) (cm : nat)
    (f : LogColorMapper -> LogColorMapper) : Figure :=
  {| plot_width := plot_width fig;
     plot_height := plot_height fig;
     x_range := x_range fig;
     y_range := y_range fig;
     title := title fig;
     tools := tools fig;
     toolbar_location := toolbar_location fig;
     border_fill_color := border_fill_color fig;
     yaxis_label := yaxis_label fig;
     xaxis_label := xaxis_label fig;
     renderers := renderers fig;
     right := right fig;
     mappers := update_at (mappers fig) cm f |}.

Definition set_high (v : float) (m : LogColorMapper) : LogColorMapper :=
  {| palette := palette m; low := low m; high := v |}.

Definition set_low (v : float) (m : LogColorMapper) : LogColorMapper :=
  {| palette := palette m; low := v; high := high m |}.

(** The slider callback (lines 161-164).  The figure it closes over is the
    state it runs on. *)
Definition stretch_change_callback (attr : string)
    (old new : float * float) (fig : Figure) : py Figure :=
  hi <- pow10 (snd new) ;;
  r1 <- first_of (select fig "tpfimg") ;;
  cm1 <- glyph_color_mapper (glyph r1) ;;
  let fig1 := set_mapper fig cm1 (set_high hi) in
  lo <- pow10 (fst new) ;;
  r0 <- first_of (select fig1 "tpfimg") ;;
  cm0 <- glyph_color_mapper (glyph r0) ;;
  ret (set_mapper fig1 cm0 (set_low lo)).

Definition handler : Type :=
  string -> float * float -> float * float -> Figure -> py Figure.

Record RangeSlider : Type := {
  rs_start : float;
  rs_end : float;
  rs_step : float;
  rs_title : string;
  rs_value : float * float;
  rs_orientation : string;
  rs_width : Z;
  rs_direction : string;
  rs_show_value : bool;
  rs_sizing_mode : string;
  rs_height : Z;
  rs_name : string;
  on_change : list (string * handler)
}.

(** What numpy hands back from a percentile call: one scalar or a vector. *)
Inductive np_value : Type :=
| Scalar (v : float)
| Vector (vs : list float).

(** [a, b, c, d = v]. *)
Definition unpack4 (v : np_value) : py (float * float * float * float) :=
  match v with
  | Vector [a; b; c; d] => Ok (a, b, c, d)
  | Vector _ => Raise ValueError
  | Scalar _ => Raise TypeError
  end.

(** Lines 102-107. *)
Definition figure_title (tpf : TargetPixelFile) : string :=
  if pyval_eq_str (tpf_mission tpf) "Kepler"
     || pyval_eq_str (tpf_mission tpf) "K2"
  then "Pixel data (CCD " ++ format_field (tpf_module tpf) ++ "."
       ++ format_field (tpf_output tpf) ++ ")"
  else if pyval_eq_str (tpf_mission tpf) "TESS"
  then "Pixel data (Camera " ++ format_field (tpf_camera tpf) ++ "."
       ++ format_field (tpf_ccd tpf) ++ ")"
  else "Pixel data".

(** Lines 99-100. *)
Definition effective_pedestal (tpf : TargetPixelFile)
    (pedestal : option float) : py float :=
  match pedestal with
  | None =>
      m <- np_nanmin (tpf_flux tpf) ;;
      ret (float_add (float_neg m) (Fin 1))
  | Some p => ret p
  end.

(** [a + p] for a scalar [p]. *)
Definition add_scalar (a : ndarray float) (p : float) : ndarray float :=
  nd_map (fun v => float_add v p) a.

Section Figure.

(** numpy's percentile of the non-NaN entries of a non-empty buffer. *)
Variable percentile : list float -> R -> float.

(** [np.log10] on one value. *)
Variable np_log10 : float -> float.

(** [np.nanpercentile(a, q)]: an empty array yields a single NaN. *)
Definition np_nanpercentile (a : ndarray float) (q : list R) : np_value :=
  if size a =? 0 then Scalar NaN
  else Vector (map (percentile (data a)) q).

(** Lines 79-168.  The checks bokeh makes on the values it is handed are
    not part of the function; the one on the ends of the slider is
    [slider_accepted]. *)
Definition make_tpf_figure_elements (tpf : TargetPixelFile)
    (tpf_source : option PixelSource) (pedestal : option float)
    (fiducial_frame : option Z) (plot_width plot_height : Z)
  : py (Figure * RangeSlider) :=
  pedestal <- effective_pedestal tpf pedestal ;;
  let title := figure_title tpf in
  ncols <- tuple_get (tpf_shape tpf) 2 ;;
  nrows <- tuple_get (tpf_shape tpf) 1 ;;
  ps <- unpack4 (np_nanpercentile (add_scalar (tpf_flux tpf) pedestal)
                   [0.2; 1; 95; 99.8]%R) ;;
  let '(vlo, lo, hi, vhi) := ps in
  let vstep := float_div_lit (float_sub (np_log10 vhi) (np_log10 vlo)) 300 in
  let color_mapper := {| palette := "Viridis256"; low := lo; high := hi |} in
  frame <- nd_frame (tpf_flux tpf) fiducial_frame ;;
  let img :=
    {| name := Some "tpfimg";
       glyph := Image [add_scalar frame pedestal]
                      (tpf_column tpf) (tpf_row tpf) ncols nrows true 0 |} in
  let color_bar :=
    {| cb_color_mapper := 0;
       cb_desired_num_ticks := 8;
       cb_label_standoff := -10;
       cb_location := (0, 0)%Z;
       cb_background_fill_color := "whitesmoke";
       cb_major_label_text_align := "left";
       cb_major_label_text_baseline := "middle";
       cb_title := "e/s";
       cb_margin := 0;
       cb_formatter := "%14u" |} in
  let overlay :=
    match tpf_source with
    | Some src =>
        [ {| name := None;
             glyph := Rect "xx" "yy" 1 1 src "gray" 0.4 "white" |} ]
    | None => []
    end in
  let fig :=
    {| plot_width := plot_width;
       plot_height := plot_height;
       x_range := (tpf_column tpf, tpf_column tpf + Z.of_nat ncols)%Z;
       y_range := (tpf_row tpf, tpf_row tpf + Z.of_nat nrows)%Z;
       title := title;
       tools := "tap,box_select,wheel_zoom,reset";
       toolbar_location := "below";
       border_fill_color := "whitesmoke";
       yaxis_label := "Pixel Row Number";
       xaxis_label := "Pixel Column Number";
       renderers := img :: overlay;
       right := [color_bar];
       mappers := [color_mapper] |} in
  let stretch_slider :=
    {| rs_start := np_log10 vlo;
       rs_end := np_log10 vhi;
       rs_step := vstep;
       rs_title := "Screen Stretch (log)";
       rs_value := (np_log10 lo, np_log10 hi);
       rs_orientation := "horizontal";
       rs_width := 200;
       rs_direction := "ltr";
       rs_show_value := true;
       rs_sizing_mode := "fixed";
       rs_height := 15;
       rs_name := "tpfstretch";
       on_change := [("value", stretch_change_callback)] |} in
  ret (fig, stretch_slider).

End Figure.

(** [widget.on_change] dispatch: a change of attribute [attr] runs, in
    order of registration, the handlers registered for it. *)
Fixpoint run_handlers (hs : list (string * handler)) (attr : string)
    (old new : float * float) (fig : Figure) : py Figure :=
  match hs with
  | [] => ret fig
  | (ev, h) :: hs' =>
      if String.eqb ev attr then
        fig' <- h attr old new fig ;;
        run_handlers hs' attr old new fig'
      else run_handlers hs' attr old new fig
  end.

Definition trigger (sl : RangeSlider) (attr : string)
    (old new : float * float)
    (fig : Figure) : py Figure :=
  run_handlers (on_change sl) attr old new fig.

(** The arrays drawn by the image renderer called [tpfimg]. *)
Definition displayed_images (fig : Figure) : list (ndarray float) :=
  flat_map (fun r => match glyph r with
                     | Image imgs _ _ _ _ _ _ => imgs
                     | Rect _ _ _ _ _ _ _ _ => []
                     end) (select fig "tpfimg").

(** The colour mapper of the image renderer called [tpfimg]. *)
Definition image_mapper (fig : Figure) : option LogColorMapper :=
  match select fig "tpfimg" with
  | r :: _ =>
      match glyph r with
      | Image _ _ _ _ _ _ cm => nth_error (mappers fig) cm
      | Rect _ _ _ _ _ _ _ _ => None
      end
  | [] => None
  end.

(** The string the quality column shows for one decoded bitmask. *)
Definition flag_string (flag_str_list : list string) : string :=
  match flag_str_list with
  | [] => " "
  | [flag] => flag
  | _ => String.concat "; " flag_str_list
  end.

(** ** Sample inputs *)

(** A stand-in for the ISO formatter of [astropy]. *)
Definition sample_isot (t : float) : string :=
  match t with
  | Fin _ => "2019-01-01T00:00:00.000"
  | _ => "NaT"
  end.

(** Two samples with valid times and no quality flag set. *)
Definition lc_clean : LightCurve :=
  {| lc_time := [Fin 1; Fin 2];
     lc_flux := [Fin 10; Fin 11];
     lc_cadenceno := [100; 101]%Z;
     lc_quality := [0; 0]%Z |}.

(** One sample whose quality bitmask is zero. *)
Definition lc_single : LightCurve :=
  {| lc_time := [Fin 1];
     lc_flux := [Fin 10];
     lc_cadenceno := [100]%Z;
     lc_quality := [0]%Z |}.


(** The integer grids of [prepare_tpf_datasource]: offsets plus [arange]. *)
Definition offsets (z : Z) (n : nat) : list Z :=
  map (fun k => (z + k)%Z) (map Z.of_nat (seq 0 n)).

(** A frame index the cube accepts: absent, or within [-F, F). *)
Definition valid_frame (F : nat) (fiducial_frame : option Z) : Prop :=
  match fiducial_frame with
  | None => True
  | Some k => (- Z.of_nat F <= k < Z.of_nat F)%Z
  end.

(** The four percentiles of line 119, as the mapper and the slider use
    them. *)
Definition stretch_bounds (percentile : list float -> R -> float)
    (shifted : ndarray float) : float * float * float * float :=
  (percentile (data shifted) 0.2%R, percentile (data shifted) 1%R,
   percentile (data shifted) 95%R, percentile (data shifted) 99.8%R).



(** [np.log10] on the float model. *)
Definition log10_exact (x : float) : float :=
  match x with
  | NaN | NInf => NaN
  | PInf => PInf
  | Fin r =>
      if Rlt_dec 0 r then Fin (ln r / ln 10)
      else if Req_dec_T r 0 then NInf else NaN
  end.

(** A stand-in for numpy's percentile: the smallest entry, whatever the
    rank asked for. *)
Definition sample_percentile (xs : list float) (q : R) : float :=
  fold_left float_fmin xs NaN.

(** A Kepler pixel file of two 1 x 1 frames. *)
Definition two_frame_tpf : TargetPixelFile :=
  {| tpf_flux := {| shape := [2; 1; 1]; data := [Fin 1; Fin 2] |};
     tpf_column := 0; tpf_row := 0;
     tpf_mission := PyStr "Kepler";
     tpf_module := PyInt 13; tpf_output := PyInt 2;
     tpf_camera := PyNone; tpf_ccd := PyNone |}.

(** A figure holding one image renderer whose mapper is in some earlier
    state. *)
Definition example_figure : Figure :=
  {| plot_width := 370; plot_height := 340;
     x_range := (10, 13)%Z; y_range := (20, 22)%Z;
     title := "Pixel data";
     tools := "tap,box_select,wheel_zoom,reset";
     toolbar_location := "below";
     border_fill_color := "whitesmoke";
     yaxis_label := "Pixel Row Number";
     xaxis_label := "Pixel Column Number";
     renderers :=
       [ {| name := Some "tpfimg";
            glyph := Image [ {| shape := [1; 1]; data := [Fin 7] |} ]
                           10 20 3 2 true 0 |} ];
     right := [];
     mappers := [ {| palette := "Viridis256"; low := NaN; high := Fin 5 |} ] |}.


(** A pixel file that names no known mission. *)
Definition unnamed_tpf : TargetPixelFile :=
  {| tpf_flux := {| shape := [1; 1; 2]; data := [NaN; Fin (-3)] |};
     tpf_column := 5; tpf_row := 7;
     tpf_mission := PyNone;
     tpf_module := PyNone; tpf_output := PyNone;
     tpf_camera := PyNone; tpf_ccd := PyNone |}.


(** A decoder in the style of the quality-flag class: one name per set
    bit, lowest bit first. *)
Definition sample_decode (bitmask : Z) : list string :=
  (if Z.testbit bitmask 0 then ["Attitude tweak"] else [])
  ++ (if Z.testbit bitmask 1 then ["Safe mode"] else [])
  ++ (if Z.testbit bitmask 2 then ["Coarse point"] else []).

(** The module namespace once a decoder is bound to [KeplerQualityFlags]. *)
Definition globals_with_decoder : namespace :=
  ("KeplerQualityFlags", QualityFlags sample_decode) :: module_globals.

(** Three samples with flags 0, 2 and 3. *)
Definition lc_flagged : LightCurve :=
  {| lc_time := [Fin 1; Fin 2; Fin 3];
     lc_flux := [Fin 10; Fin 11; Fin 12];
     lc_cadenceno := [100; 101; 102]%Z;
     lc_quality := [0; 2; 3]%Z |}.

(** A light curve without quality bitmasks, with one undefined time and
    with fewer flux values than times. *)
Definition lc_ragged : LightCurve :=
  {| lc_time := [NaN; Fin 1; PInf];
     lc_flux := [Fin 10];
     lc_cadenceno := [];
     lc_quality := [] |}.

(** The number of true cells of a mask buffer. *)
Definition count_true (ms : list bool) : nat :=
  length (filter (fun b => b) ms).

(** A cube without frames. *)
Definition frameless_tpf : TargetPixelFile :=
  {| tpf_flux := {| shape := [0; 2; 3]; data := [] |};
     tpf_column := 10; tpf_row := 20;
     tpf_mission := PyStr "TESS";
     tpf_module := PyNone; tpf_output := PyNone;
     tpf_camera := PyInt 1; tpf_ccd := PyInt 4 |}.

(** A mask of the transposed shape. *)
Definition transposed_mask : ndarray bool :=
  {| shape := [3; 2]; data := [true; false; true; false; true; false] |}.


(** A cube in which every flux value is undefined. *)
Definition nan_tpf : TargetPixelFile :=
  {| tpf_flux := {| shape := [1; 1; 2]; data := [NaN; NaN] |};
     tpf_column := 0; tpf_row := 0;
     tpf_mission := PyStr "K2";
     tpf_module := PyInt 4; tpf_output := PyInt 1;
     tpf_camera := PyNone; tpf_ccd := PyNone |}.


(** A time the conversion to a calendar date accepts: finite and within a
    million days of the origin of its scale. *)
Definition ordinary_time (t : float) : Prop :=
  match t with
  | Fin r => (Rabs r <= 1000000)%R
  | _ => False
  end.



(** bokeh refuses a slider whose [start] equals its [end]: the
    [RangeSlider] of line 148 is built only when the two differ. *)
Definition slider_accepted (sl : RangeSlider) : bool :=
  negb (float_eqb (rs_start sl) (rs_end sl)).

(** numpy's [fmax]: the larger of the two, ignoring a NaN operand. *)
Definition float_fmax (x y : float) : float :=
  match x, y with
  | NaN, _ => y
  | _, NaN => x
  | PInf, _ | _, PInf => PInf
  | NInf, _ => y
  | _, NInf => x
  | Fin a, Fin b => Fin (Rmax a b)
  end.

(** A coarser stand-in for numpy's percentile that tells low ranks from
    high ones: the smallest entry for a rank below 50, the largest entry
    from 50 on. *)
Definition extreme_percentile (xs : list float) (q : R) : float :=
  if Rlt_dec q 50 then fold_left float_fmin xs NaN
  else fold_left float_fmax xs NaN.

(** A pixel file of a mission the title does not know, with two distinct
    flux values. *)
Definition other_tpf : TargetPixelFile :=
  {| tpf_flux := {| shape := [1; 1; 2]; data := [Fin 1; Fin 2] |};
     tpf_column := 5; tpf_row := 7;
     tpf_mission := PyStr "Spitzer";
     tpf_module := PyNone; tpf_output := PyNone;
     tpf_camera := PyNone; tpf_ccd := PyNone |}.

(** ** Binary64 arithmetic

    The sums of lines 73, 100 and 119 as the floating-point unit computes
    them, on the machine floats of the kernel. *)

Module Binary64.
Import PrimFloat.

(** An [int64] value converted to [float64]. *)
Definition of_int (v : Z) : float := of_uint63 (Uint63.of_Z v).

(** [xa + 0.5] at a cell holding the integer [v] (line 73). *)
Definition centre (v : Z) : float := (of_int v + 0.5)%float.

(** The [x] coordinate of the cells of column [j] (lines 68 and 73). *)
Definition xx_cell (column : Z) (j : nat) : float :=
  centre (column + Z.of_nat j).




(** [tpf.flux + pedestal] (lines 119 and 123). *)
Definition shifted (xs : list float) (p : float) : list float :=
  map (fun x => (x + p)%float) xs.

Definition lt (x y : float) : bool := ltb x y.




End Binary64.

(** * Properties *)

(** ** Floats *)

Lemma float_eqb_refl (x : float) : float_eqb x x = negb (is_nan x).
Proof.
  destruct x as [ | | | a]; simpl; try reflexivity.
  destruct (Req_dec_T a a) as [_ | Hne]; [reflexivity | now elim Hne].
Qed.

Lemma np_equal_self (ts : list float) :
  np_all (np_equal ts ts) = negb (existsb is_nan ts).
Proof.
  unfold np_all, np_equal.
  induction ts as [ | t ts IH]; simpl; [reflexivity | ].
  rewrite float_eqb_refl, IH, negb_orb. reflexivity.
Qed.

(** ** Header values *)

Example str_of_int_examples :
  map str_of_int [0; 7; 10; 13; 84; 100; 2047; -5]%Z
  = ["0"; "7"; "10"; "13"; "84"; "100"; "2047"; "-5"].
Proof. reflexivity. Qed.

Example figure_title_examples :
  map figure_title [two_frame_tpf; example_tpf; unnamed_tpf]
  = ["Pixel data (CCD 13.2)"; "Pixel data (Camera 1.4)"; "Pixel data"].
Proof. reflexivity. Qed.

(** ** The tool-tip table *)

Lemma append_flag_string_spec (l qs : list string) :
  append_flag_string l qs = qs ++ [flag_string l].
Proof.
  unfold append_flag_string.
  destruct l as [ | a [ | b l']]; reflexivity.
Qed.


Lemma quality_loop_bound (g : namespace) (decode : Z -> list string)
    (bs : list Z) :
  lookup g "KeplerQualityFlags" = Some (QualityFlags decode) ->
  forall qs,
    quality_loop g bs qs = Ok (qs ++ map (fun b => flag_string (decode b)) bs).
Proof.
  intros Hg. induction bs as [ | b bs IH]; intros qs; simpl.
  - now rewrite app_nil_r.
  - unfold load_global. rewrite Hg. simpl.
    rewrite IH, append_flag_string_spec, <- app_assoc. reflexivity.
Qed.

(** The time strings of lines 27-30. *)
Lemma human_time_spec (isot : float -> string) (lc : LightCurve) :
  (if np_all (np_equal (lc_time lc) (lc_time lc))
   then astropy_isot isot (lc_time lc)
   else ret (repeat " " (length (lc_flux lc))))
  = if existsb is_nan (lc_time lc)
    then Ok (repeat " " (length (lc_flux lc)))
    else if existsb is_inf (lc_time lc) then Raise ValueError
    else Ok (map isot (lc_time lc)).
Proof.
  rewrite np_equal_self. unfold astropy_isot.
  destruct (existsb is_nan (lc_time lc)); reflexivity.
Qed.

Lemma ordinary_times_finite (ts : list float) :
  Forall ordinary_time ts -> existsb is_inf ts = false.
Proof.
  induction 1 as [ | t ts Ht _ IH]; [reflexivity | ].
  simpl. rewrite IH. destruct t; simpl in *; try contradiction; reflexivity.
Qed.

(** With a decoder bound to [KeplerQualityFlags], and times that are
    converted or blanked, the builder returns the table of the
    specification: the time strings follow the all-or-nothing rule and each
    quality string is the rendering of its decoded flags. *)
Lemma prepare_lightcurve_datasource_bound (isot : float -> string)
    (g : namespace) (decode : Z -> list string) (lc : LightCurve) :
  lookup g "KeplerQualityFlags" = Some (QualityFlags decode) ->
  existsb is_nan (lc_time lc) = true \/ existsb is_inf (lc_time lc) = false ->
  prepare_lightcurve_datasource isot g lc =
  Ok {| time := lc_time lc;
        time_iso := if existsb is_nan (lc_time lc)
                    then repeat " " (length (lc_flux lc))
                    else map isot (lc_time lc);
        flux := lc_flux lc;
        cadence := lc_cadenceno lc;
        quality_code := lc_quality lc;
        quality := map (fun b => flag_string (decode b)) (lc_quality lc) |}.
Proof.
  intros Hg Ht. unfold prepare_lightcurve_datasource.
  rewrite human_time_spec, (quality_loop_bound _ _ Hg).
  destruct (existsb is_nan (lc_time lc)); [reflexivity | ].
  destruct Ht as [Ht | Ht]; [discriminate | ]. rewrite Ht. reflexivity.
Qed.





(** C1, at a light curve with valid times and two samples: the builder
    raises [NameError] at the first quality bitmask and returns no table,
    hence no [time_iso] column. *)
Theorem time_iso_not_produced (isot : float -> string) :
  existsb is_nan (lc_time lc_clean) = false /\
  prepare_lightcurve_datasource isot module_globals lc_clean =
  Raise (NameError "KeplerQualityFlags") /\
  ~ (exists src,
       prepare_lightcurve_datasource isot module_globals lc_clean = Ok src /\
       time_iso src = map isot (lc_time lc_clean)).
Proof.
  assert (H : prepare_lightcurve_datasource isot module_globals lc_clean =
              Raise (NameError "KeplerQualityFlags")).
  { unfold prepare_lightcurve_datasource. rewrite human_time_spec.
    reflexivity. }
  split; [reflexivity | split; [exact H | ]].
  intros [src [Hsrc _]]. rewrite H in Hsrc. discriminate.
Qed.

(** C3, at a light curve whose single quality bitmask is zero: the decoder
    is never reached, the builder raises [NameError], and no quality column
    with the blank string is produced. *)
Theorem quality_column_not_produced (isot : float -> string) :
  prepare_lightcurve_datasource isot module_globals lc_single =
  Raise (NameError "KeplerQualityFlags") /\
  ~ (exists src,
       prepare_lightcurve_datasource isot module_globals lc_single = Ok src /\
       quality src = [" "]).
Proof.
  assert (H : prepare_lightcurve_datasource isot module_globals lc_single =
              Raise (NameError "KeplerQualityFlags")).
  { unfold prepare_lightcurve_datasource. rewrite human_time_spec.
    reflexivity. }
  split; [exact H | ].
  intros [src [Hsrc _]]. rewrite H in Hsrc. discriminate.
Qed.

(** ** The pixel overlay *)

Lemma select_true_seq (ms : list bool) :
  forall (n s : nat) (k : Z),
    In k (select_true (map Z.of_nat (seq s n)) ms) <->
    exists t, t < n /\ k = Z.of_nat (s + t) /\ nth_error ms t = Some true.
Proof.
  induction ms as [ | m ms IH]; intros n s k.
  - split.
    + destruct n; simpl; intros [].
    + intros [t [_ [_ Ht]]]. destruct t; discriminate.
  - destruct n as [ | n]; simpl.
    + split; [intros [] | intros [t [Ht _]]; lia].
    + assert (Hrest : In k (select_true (map Z.of_nat (seq (S s) n)) ms) <->
                      exists t, 0 < t < S n /\ k = Z.of_nat (s + t) /\
                                nth_error (m :: ms) t = Some true).
      { rewrite IH. split.
        - intros [t [Ht [Hk Hm]]]. exists (S t). simpl.
          repeat split; try lia; assumption.
        - intros [t [Ht [Hk Hm]]]. destruct t as [ | t]; [lia | ].
          exists t. simpl in Hm. repeat split; try lia; assumption. }
      destruct m; simpl; rewrite Hrest; split.
      * intros [Hk | [t [Ht H]]].
        -- exists 0. rewrite Nat.add_0_r. repeat split; [lia | now symmetry].
        -- exists t. split; [lia | exact H].
      * intros [t [Ht [Hk Hm]]]. destruct t as [ | t].
        -- left. rewrite Nat.add_0_r in Hk. now symmetry.
        -- right. exists (S t). repeat split; try lia; assumption.
      * intros [t [Ht H]]. exists t. split; [lia | exact H].
      * intros [t [Ht [Hk Hm]]]. destruct t as [ | t]; [discriminate | ].
        exists (S t). repeat split; try lia; assumption.
Qed.

Lemma select_true_seq_sorted (ms : list bool) :
  forall n s, StronglySorted Z.lt (select_true (map Z.of_nat (seq s n)) ms).
Proof.
  induction ms as [ | m ms IH]; intros n s.
  - destruct n; constructor.
  - destruct n as [ | n]; simpl; [constructor | ].
    destruct m; [ | apply IH].
    constructor; [apply IH | ].
    apply Forall_forall. intros k Hk.
    apply select_true_seq in Hk. destruct Hk as [t [_ [Hk _]]]. lia.
Qed.

Lemma select_true_none {A : Type} (xs : list A) :
  forall ms, forallb negb ms = true -> select_true xs ms = [].
Proof.
  induction xs as [ | x xs IH]; intros [ | m ms] H; try reflexivity.
  simpl in *. destruct m; [discriminate | now apply IH].
Qed.

Lemma select_true_all {A : Type} (xs : list A) :
  forall ms, length ms = length xs -> forallb (fun b => b) ms = true ->
             select_true xs ms = xs.
Proof.
  induction xs as [ | x xs IH]; intros [ | m ms] Hlen H; try reflexivity;
    try discriminate.
  simpl in *. destruct m; [ | discriminate].
  f_equal. apply IH; [lia | assumption].
Qed.

Lemma nth_error_meshgrid_x {A B : Type} (xs : list A) (ys : list B) :
  forall i j, i < length ys -> j < length xs ->
    nth_error (flat_map (fun _ => xs) ys) (i * length xs + j) = nth_error xs j.
Proof.
  induction ys as [ | y ys IH]; intros i j Hi Hj; simpl in *; [lia | ].
  destruct i as [ | i]; simpl.
  - now apply nth_error_app1.
  - rewrite nth_error_app2 by lia.
    replace (length xs + i * length xs + j - length xs)
      with (i * length xs + j) by lia.
    apply IH; lia.
Qed.

Lemma nth_error_meshgrid_y {A : Type} (ys : list A) (n : nat) :
  forall i j, i < length ys -> j < n ->
    nth_error (flat_map (fun y => repeat y n) ys) (i * n + j) = nth_error ys i.
Proof.
  induction ys as [ | y ys IH]; intros i j Hi Hj; simpl in *; [lia | ].
  destruct i as [ | i]; simpl.
  - rewrite nth_error_app1 by (rewrite repeat_length; lia).
    now apply nth_error_repeat.
  - rewrite nth_error_app2 by (rewrite repeat_length; lia).
    rewrite repeat_length.
    replace (n + i * n + j - n) with (i * n + j) by lia.
    apply IH; lia.
Qed.

Lemma length_meshgrid_x {A B : Type} (xs : list A) (ys : list B) :
  length (flat_map (fun _ => xs) ys) = length ys * length xs.
Proof.
  induction ys as [ | y ys IH]; simpl; [reflexivity | ].
  now rewrite length_app, IH.
Qed.

Lemma length_meshgrid_y {A : Type} (ys : list A) (n : nat) :
  length (flat_map (fun y => repeat y n) ys) = length ys * n.
Proof.
  induction ys as [ | y ys IH]; simpl; [reflexivity | ].
  now rewrite length_app, repeat_length, IH.
Qed.

Lemma shape_eqb_refl (s : list nat) : shape_eqb s s = true.
Proof.
  unfold shape_eqb. destruct (list_eq_dec Nat.eq_dec s s); congruence.
Qed.

(** What [prepare_tpf_datasource] returns on a cube with at least one
    frame and a mask of the frame's shape. *)
Lemma prepare_tpf_datasource_ok (tpf : TargetPixelFile)
    (aperture_mask : ndarray bool) (F R C : nat) :
  tpf_shape tpf = [S F; R; C] ->
  shape aperture_mask = [R; C] ->
  prepare_tpf_datasource tpf aperture_mask =
  Ok {| xx := add_half
               {| shape := [R; C];
                  data := flat_map (fun _ => offsets (tpf_column tpf) C)
                                   (offsets (tpf_row tpf) R) |};
        yy := add_half
               {| shape := [R; C];
                  data := flat_map (fun y => repeat y C)
                                   (offsets (tpf_row tpf) R) |};
        selected :=
          {| indices := select_true (map Z.of_nat (seq 0 (R * C)))
                                    (data aperture_mask) |} |}.
Proof.
  unfold tpf_shape. intros Hs Hm.
  unfold prepare_tpf_datasource, nd_frame, nd_index0, tpf_shape.
  rewrite Hs. simpl.
  unfold nd_reshape, size. simpl.
  rewrite !Nat.mul_1_r, Nat.eqb_refl. simpl.
  unfold nd_mask_select. simpl. rewrite Hm, shape_eqb_refl. simpl.
  unfold offsets. rewrite !length_map, !length_seq. reflexivity.
Qed.

Lemma length_offsets (z : Z) (n : nat) : length (offsets z n) = n.
Proof. unfold offsets. now rewrite !length_map, length_seq. Qed.

Lemma nth_error_offsets (z : Z) (n j : nat) :
  j < n -> nth_error (offsets z n) j = Some (z + Z.of_nat j)%Z.
Proof.
  intros Hj. unfold offsets.
  rewrite !nth_error_map, nth_error_seq.
  apply Nat.ltb_lt in Hj. rewrite Hj. reflexivity.
Qed.

Lemma nd_get2_in_range {A : Type} (a : ndarray A) (r c i j : nat) :
  shape a = [r; c] -> i < r -> j < c ->
  nd_get2 a i j = nth_error (data a) (i * c + j).
Proof.
  intros Hs Hi Hj. unfold nd_get2. rewrite Hs.
  apply Nat.ltb_lt in Hi, Hj. now rewrite Hi, Hj.
Qed.

(** Row-major positions below [r * c] are exactly the cells [(i, j)]. *)
Lemma row_major_cell (r c t : nat) :
  t < r * c -> exists i j, i < r /\ j < c /\ t = i * c + j.
Proof.
  intros Ht. assert (Hc : c <> 0) by nia.
  exists (t / c), (t mod c). repeat split.
  - apply Nat.Div0.div_lt_upper_bound. lia.
  - now apply Nat.mod_upper_bound.
  - rewrite (Nat.div_mod_eq t c) at 1. lia.
Qed.

(** C4: on a cube whose first frame has shape R x C and a mask of that
    shape, the initial selection holds exactly the row-major indices
    [i * C + j] of the cells where the mask is true, each once and in
    increasing order; an all-false mask selects nothing and an all-true mask
    selects [0 .. R*C-1]. *)
Theorem preselected_indices (tpf : TargetPixelFile)
    (aperture_mask : ndarray bool) (F R C : nat) :
  tpf_shape tpf = [S F; R; C] ->
  shape aperture_mask = [R; C] ->
  well_formed aperture_mask ->
  exists src,
    prepare_tpf_datasource tpf aperture_mask = Ok src /\
    (forall k,
        In k (indices (selected src)) <->
        exists i j, i < R /\ j < C /\ k = Z.of_nat (i * C + j) /\
                    nd_get2 aperture_mask i j = Some true) /\
    StronglySorted Z.lt (indices (selected src)) /\
    (forallb negb (data aperture_mask) = true ->
     indices (selected src) = []) /\
    (forallb (fun b => b) (data aperture_mask) = true ->
     indices (selected src) = map Z.of_nat (seq 0 (R * C))).
Proof.
  intros Hs Hm Hwf. eexists. split.
  { exact (prepare_tpf_datasource_ok tpf aperture_mask Hs Hm). }
  simpl. repeat split.
  - intros Hk. apply select_true_seq in Hk.
    destruct Hk as [t [Ht [Hk Htrue]]].
    destruct (row_major_cell _ _ Ht) as [i [j [Hi [Hj Hij]]]].
    exists i, j. rewrite (nd_get2_in_range _ Hm Hi Hj), <- Hij.
    repeat split; assumption.
  - intros [i [j [Hi [Hj [Hk Htrue]]]]].
    apply select_true_seq. exists (i * C + j).
    rewrite (nd_get2_in_range _ Hm Hi Hj) in Htrue.
    repeat split; [nia | assumption | assumption].
  - apply select_true_seq_sorted.
  - apply select_true_none.
  - apply select_true_all.
    unfold well_formed, size in Hwf. rewrite Hm in Hwf. simpl in Hwf.
    rewrite length_map, length_seq. lia.
Qed.

Lemma preselected_indices_witness :
  exists src,
    prepare_tpf_datasource example_tpf example_mask = Ok src /\
    (forall k,
        In k (indices (selected src)) <->
        exists i j, i < 2 /\ j < 3 /\ k = Z.of_nat (i * 3 + j) /\
                    nd_get2 example_mask i j = Some true) /\
    StronglySorted Z.lt (indices (selected src)) /\
    (forallb negb (data example_mask) = true ->
     indices (selected src) = []) /\
    (forallb (fun b => b) (data example_mask) = true ->
     indices (selected src) = map Z.of_nat (seq 0 (2 * 3))).
Proof.
  apply (@preselected_indices example_tpf example_mask 0 2 3);
    reflexivity.
Defined.

(** The example of the specification: column 10, row 20, shape (1, 2, 3)
    and the mask [[T, F, T], [F, T, F]] select the pixels 0, 2 and 4. *)
Example preselected_indices_example :
  exists src,
    prepare_tpf_datasource example_tpf example_mask = Ok src /\
    indices (selected src) = [0; 2; 4]%Z.
Proof.
  eexists. split.
  - apply (@prepare_tpf_datasource_ok example_tpf example_mask 0 2 3);
      reflexivity.
  - reflexivity.
Qed.

(** C5, for offsets whose pixel centres are floats: on such a cube, with
    column and row numbers between [-2^52] and [2^52], the overlay has one
    coordinate pair per cell, and the cell in row [i] and column [j] gets
    the pixel centre [x = column + j + 0.5], [y = row + i + 0.5]. *)
Theorem pixel_centres (tpf : TargetPixelFile)
    (aperture_mask : ndarray bool) (F R C : nat) :
  tpf_shape tpf = [S F; R; C] ->
  shape aperture_mask = [R; C] ->
  (- 2 ^ 52 <= tpf_column tpf /\ tpf_column tpf + Z.of_nat C <= 2 ^ 52)%Z ->
  (- 2 ^ 52 <= tpf_row tpf /\ tpf_row tpf + Z.of_nat R <= 2 ^ 52)%Z ->
  exists src,
    prepare_tpf_datasource tpf aperture_mask = Ok src /\
    shape (xx src) = [R; C] /\ well_formed (xx src) /\
    shape (yy src) = [R; C] /\ well_formed (yy src) /\
    forall i j, i < R -> j < C ->
      nd_get2 (xx src) i j
      = Some (Fin (IZR (tpf_column tpf) + INR j + 0.5)) /\
      nd_get2 (yy src) i j
      = Some (Fin (IZR (tpf_row tpf) + INR i + 0.5)).
Proof.
  intros Hs Hm _ _. eexists. split.
  { exact (prepare_tpf_datasource_ok tpf aperture_mask Hs Hm). }
  simpl. unfold well_formed, size. simpl.
  rewrite !length_map, length_meshgrid_x, length_meshgrid_y, !length_offsets.
  repeat split; try lia.
  - rewrite (@nd_get2_in_range _ _ R C) by (reflexivity || assumption).
    simpl. rewrite nth_error_map.
    rewrite <- (length_offsets (tpf_column tpf) C) at 1.
    rewrite nth_error_meshgrid_x by (rewrite length_offsets; assumption).
    rewrite nth_error_offsets by assumption. simpl.
    now rewrite plus_IZR, <- INR_IZR_INZ.
  - rewrite (@nd_get2_in_range _ _ R C) by (reflexivity || assumption).
    simpl. rewrite nth_error_map.
    rewrite nth_error_meshgrid_y by (rewrite ?length_offsets; assumption).
    rewrite nth_error_offsets by assumption. simpl.
    now rewrite plus_IZR, <- INR_IZR_INZ.
Qed.

Lemma pixel_centres_witness :
  exists src,
    prepare_tpf_datasource example_tpf example_mask = Ok src /\
    shape (xx src) = [2; 3] /\ well_formed (xx src) /\
    shape (yy src) = [2; 3] /\ well_formed (yy src) /\
    forall i j, i < 2 -> j < 3 ->
      nd_get2 (xx src) i j
      = Some (Fin (IZR (tpf_column example_tpf) + INR j + 0.5)) /\
      nd_get2 (yy src) i j
      = Some (Fin (IZR (tpf_row example_tpf) + INR i + 0.5)).
Proof.
  apply (@pixel_centres example_tpf example_mask 0 2 3);
    [reflexivity | reflexivity | simpl; lia | simpl; lia].
Defined.

(** C5 does not hold for every offset: at column [2^53] the floats are two
    apart, and the cells of the columns 0 and 1 both get the x coordinate
    [2^53], neither [2^53 + 0.5] nor [2^53 + 1.5]. *)
Lemma pixel_centres_collide :
  Binary64.xx_cell (2 ^ 53) 0 = Binary64.of_int (2 ^ 53) /\
  Binary64.xx_cell (2 ^ 53) 1 = Binary64.of_int (2 ^ 53).
Proof. vm_compute. split; reflexivity. Qed.

(** The example of the specification: the x-values 10.5, 11.5, 12.5 repeat
    in each of the two rows, the y-values are 20.5 and 21.5. *)
Example pixel_centres_example :
  exists src,
    prepare_tpf_datasource example_tpf example_mask = Ok src /\
    data (xx src)
    = map Fin [10.5; 11.5; 12.5; 10.5; 11.5; 12.5]%R /\
    data (yy src)
    = map Fin [20.5; 20.5; 20.5; 21.5; 21.5; 21.5]%R.
Proof.
  eexists. split.
  - apply (@prepare_tpf_datasource_ok example_tpf example_mask 0 2 3);
      reflexivity.
  - simpl. split; repeat (f_equal; try lra).
Qed.

(** ** The figure builder *)

Lemma size_add_scalar (a : ndarray float) (p : float) :
  size (add_scalar a p) = size a.
Proof. reflexivity. Qed.

Lemma nd_frame_valid {A : Type} (a : ndarray A) (F R C : nat)
    (fiducial_frame : option Z) :
  shape a = [F; R; C] ->
  valid_frame F fiducial_frame ->
  exists frame, nd_frame a fiducial_frame = Ok frame.
Proof.
  intros Hs Hv. unfold nd_frame, nd_index0. rewrite Hs. simpl.
  destruct fiducial_frame as [k | ]; simpl in *; [ | eauto].
  assert (Hk : ((- Z.of_nat F <=? k) && (k <? Z.of_nat F))%Z = true).
  { apply andb_true_iff. split; [apply Z.leb_le | apply Z.ltb_lt]; lia. }
  rewrite Hk. eauto.
Qed.

Lemma effective_pedestal_runs (tpf : TargetPixelFile)
    (pedestal : option float) :
  well_formed (tpf_flux tpf) ->
  size (tpf_flux tpf) <> 0 ->
  exists p, effective_pedestal tpf pedestal = Ok p.
Proof.
  intros Hwf Hn. destruct pedestal as [p | ]; simpl; [eauto | ].
  unfold np_nanmin. unfold well_formed in Hwf.
  destruct (data (tpf_flux tpf)) as [ | x xs]; simpl in *; [lia | eauto].
Qed.

(** *** The default pedestal *)



Lemma float_le_not_nan (x y : float) :
  float_le x y -> is_nan x = false /\ is_nan y = false.
Proof. destruct x, y; simpl; intros H; try contradiction; auto. Qed.










Section FigureProperties.

Variable percentile : list float -> R -> float.
Variable np_log10 : float -> float.

(** What the builder returns once the pedestal and the frame are known. *)
Lemma make_tpf_figure_elements_ok (tpf : TargetPixelFile)
    (tpf_source : option PixelSource) (pedestal : option float)
    (fiducial_frame : option Z) (w h : Z) (F R C : nat)
    (p : float) (frame : ndarray float) :
  tpf_shape tpf = [F; R; C] ->
  size (tpf_flux tpf) <> 0 ->
  effective_pedestal tpf pedestal = Ok p ->
  nd_frame (tpf_flux tpf) fiducial_frame = Ok frame ->
  exists fig sl,
    make_tpf_figure_elements percentile np_log10 tpf tpf_source pedestal
      fiducial_frame w h = Ok (fig, sl) /\
    title fig = figure_title tpf /\
    displayed_images fig = [add_scalar frame p] /\
    (let '(vlo, lo, hi, vhi) :=
       stretch_bounds percentile (add_scalar (tpf_flux tpf) p) in
     image_mapper fig
     = Some {| palette := "Viridis256"; low := lo; high := hi |} /\
     rs_start sl = np_log10 vlo /\
     rs_end sl = np_log10 vhi /\
     rs_value sl = (np_log10 lo, np_log10 hi) /\
     rs_step sl
     = float_div_lit (float_sub (np_log10 vhi) (np_log10 vlo)) 300) /\
    on_change sl = [("value", stretch_change_callback)].
Proof.
  intros Hs Hn Hp Hf.
  unfold make_tpf_figure_elements. rewrite Hp. simpl.
  rewrite Hs. simpl.
  unfold np_nanpercentile. rewrite size_add_scalar.
  apply Nat.eqb_neq in Hn. rewrite Hn. simpl.
  rewrite Hf. simpl.
  do 2 eexists. split; [reflexivity | ].
  simpl. unfold displayed_images, image_mapper, select. simpl.
  destruct tpf_source; simpl; repeat split; reflexivity.
Qed.

(** On a well-formed non-empty cube with an accepted frame index the
    pedestal and the frame are there. *)
Lemma make_tpf_figure_elements_runs (tpf : TargetPixelFile)
    (pedestal : option float) (fiducial_frame : option Z) (F R C : nat) :
  tpf_shape tpf = [F; R; C] ->
  well_formed (tpf_flux tpf) ->
  size (tpf_flux tpf) <> 0 ->
  valid_frame F fiducial_frame ->
  exists p frame,
    effective_pedestal tpf pedestal = Ok p /\
    nd_frame (tpf_flux tpf) fiducial_frame = Ok frame.
Proof.
  intros Hs Hwf Hn Hv.
  destruct (effective_pedestal_runs tpf pedestal Hwf Hn) as [p Hp].
  destruct (nd_frame_valid _ _ Hs Hv) as [frame Hf].
  eauto.
Qed.

(** What a returned figure and slider tell about the run that built
    them. *)
Lemma make_tpf_figure_elements_inv (tpf : TargetPixelFile)
    (tpf_source : option PixelSource) (pedestal : option float)
    (fiducial_frame : option Z) (w h : Z) (fig : Figure) (sl : RangeSlider) :
  make_tpf_figure_elements percentile np_log10 tpf tpf_source pedestal
    fiducial_frame w h = Ok (fig, sl) ->
  exists p frame ncols nrows,
    effective_pedestal tpf pedestal = Ok p /\
    tuple_get (tpf_shape tpf) 2 = Ok ncols /\
    tuple_get (tpf_shape tpf) 1 = Ok nrows /\
    nd_frame (tpf_flux tpf) fiducial_frame = Ok frame /\
    title fig = figure_title tpf /\
    displayed_images fig = [add_scalar frame p] /\
    (let shifted := data (add_scalar (tpf_flux tpf) p) in
     image_mapper fig
     = Some {| palette := "Viridis256";
               low := percentile shifted 1%R;
               high := percentile shifted 95%R |} /\
     mappers fig
     = [ {| palette := "Viridis256";
            low := percentile shifted 1%R;
            high := percentile shifted 95%R |} ] /\
     rs_start sl = np_log10 (percentile shifted 0.2%R) /\
     rs_end sl = np_log10 (percentile shifted 99.8%R) /\
     rs_value sl = (np_log10 (percentile shifted 1%R),
                    np_log10 (percentile shifted 95%R)) /\
     rs_step sl
     = float_div_lit (float_sub (np_log10 (percentile shifted 99.8%R))
                                (np_log10 (percentile shifted 0.2%R))) 300) /\
    x_range fig = (tpf_column tpf, tpf_column tpf + Z.of_nat ncols)%Z /\
    y_range fig = (tpf_row tpf, tpf_row tpf + Z.of_nat nrows)%Z /\
    renderers fig
    = {| name := Some "tpfimg";
         glyph := Image [add_scalar frame p] (tpf_column tpf) (tpf_row tpf)
                        ncols nrows true 0 |}
      :: match tpf_source with
         | Some src => [ {| name := None;
                            glyph := Rect "xx" "yy" 1 1 src "gray" 0.4
                                          "white" |} ]
         | None => []
         end /\
    map cb_color_mapper (right fig) = [0] /\
    on_change sl = [("value", stretch_change_callback)].
Proof.
  unfold make_tpf_figure_elements. intros H.
  destruct (effective_pedestal tpf pedestal) as [e | p]; [discriminate | ].
  cbn -[nd_frame add_scalar np_nanpercentile figure_title tuple_get unpack4
        tpf_shape] in H.
  destruct (tuple_get (tpf_shape tpf) 2) as [e | ncols]; [discriminate | ].
  destruct (tuple_get (tpf_shape tpf) 1) as [e | nrows]; [discriminate | ].
  unfold np_nanpercentile in H.
  destruct (size (add_scalar (tpf_flux tpf) p) =? 0); [discriminate | ].
  cbn -[nd_frame add_scalar figure_title] in H.
  destruct (nd_frame (tpf_flux tpf) fiducial_frame) as [e | frame];
    [discriminate | ].
  cbn -[add_scalar figure_title] in H. injection H as <- <-.
  exists p, frame, ncols, nrows.
  unfold displayed_images, image_mapper, select.
  destruct tpf_source; cbn -[add_scalar figure_title];
    repeat split; reflexivity.
Qed.



Lemma pyval_eq_str_true (v : pyval) (s : string) :
  pyval_eq_str v s = true <-> v = PyStr s.
Proof.
  destruct v as [ | z | t]; simpl; split; intros H; try discriminate.
  - apply String.eqb_eq in H. now subst.
  - injection H as ->. apply String.eqb_refl.
Qed.

Lemma pyval_eq_str_false (v : pyval) (s : string) :
  pyval_eq_str v s = false <-> v <> PyStr s.
Proof.
  rewrite <- pyval_eq_str_true. destruct (pyval_eq_str v s); split;
    congruence.
Qed.

(** C9: whenever the builder returns a figure and a slider whose ends
    differ (bokeh refuses the others), the figure is titled
    "Pixel data (CCD module.output)" for the missions Kepler and K2,
    "Pixel data (Camera camera.ccd)" for TESS, and "Pixel data" for every
    other mission value. *)
Theorem figure_title_by_mission (tpf : TargetPixelFile)
    (tpf_source : option PixelSource) (pedestal : option float)
    (fiducial_frame : option Z) (w h : Z) (fig : Figure) (sl : RangeSlider) :
  make_tpf_figure_elements percentile np_log10 tpf tpf_source pedestal
    fiducial_frame w h = Ok (fig, sl) ->
  slider_accepted sl = true ->
  (tpf_mission tpf = PyStr "Kepler" \/ tpf_mission tpf = PyStr "K2" ->
   title fig = ("Pixel data (CCD " ++ format_field (tpf_module tpf) ++ "."
                ++ format_field (tpf_output tpf) ++ ")")%string) /\
  (tpf_mission tpf = PyStr "TESS" ->
   title fig = ("Pixel data (Camera " ++ format_field (tpf_camera tpf)
                ++ "." ++ format_field (tpf_ccd tpf) ++ ")")%string) /\
  (tpf_mission tpf <> PyStr "Kepler" -> tpf_mission tpf <> PyStr "K2" ->
   tpf_mission tpf <> PyStr "TESS" ->
   title fig = "Pixel data").
Proof.
  intros Hrun _.
  destruct (make_tpf_figure_elements_inv _ _ _ _ _ _ Hrun)
    as [p [frame [ncols [nrows [_ [_ [_ [_ [Htitle _]]]]]]]]].
  rewrite Htitle. unfold figure_title. repeat split.
  - intros [Hm | Hm]; rewrite Hm; reflexivity.
  - intros Hm. rewrite Hm. reflexivity.
  - intros HK HK2 HT.
    apply pyval_eq_str_false in HK, HK2, HT. now rewrite HK, HK2, HT.
Qed.

(** What the figure shows for each way of naming the frame: an integer
    picks that frame of the cube, no index at all hands numpy [None], which
    keeps the whole cube and adds a leading axis. *)
Lemma displayed_frame (tpf : TargetPixelFile)
    (tpf_source : option PixelSource) (pedestal : option float)
    (w h : Z) (F R C : nat) :
  tpf_shape tpf = [S F; R; C] ->
  well_formed (tpf_flux tpf) ->
  size (tpf_flux tpf) <> 0 ->
  exists p first fig0 sl0 fig sl,
    effective_pedestal tpf pedestal = Ok p /\
    nd_index0 (tpf_flux tpf) 0 = Ok first /\
    shape first = [R; C] /\
    make_tpf_figure_elements percentile np_log10 tpf tpf_source pedestal
      (Some 0%Z) w h = Ok (fig0, sl0) /\
    displayed_images fig0 = [add_scalar first p] /\
    make_tpf_figure_elements percentile np_log10 tpf tpf_source pedestal
      None w h = Ok (fig, sl) /\
    displayed_images fig = [add_scalar (nd_newaxis (tpf_flux tpf)) p] /\
    (forall img, In img (displayed_images fig) ->
                 shape img = [1; S F; R; C]) /\
    displayed_images fig <> displayed_images fig0.
Proof.
  intros Hs Hwf Hn.
  destruct (effective_pedestal_runs tpf pedestal Hwf Hn) as [p Hp].
  assert (H0 : nd_frame (tpf_flux tpf) (Some 0%Z)
               = Ok {| shape := [R; C];
                       data := firstn (prod_shape [R; C])
                                 (skipn 0 (data (tpf_flux tpf))) |}).
  { unfold nd_frame, nd_index0. unfold tpf_shape in Hs. rewrite Hs.
    reflexivity. }
  assert (HN : nd_frame (tpf_flux tpf) None = Ok (nd_newaxis (tpf_flux tpf))).
  { unfold nd_frame. unfold tpf_shape in Hs. rewrite Hs. reflexivity. }
  destruct (make_tpf_figure_elements_ok tpf tpf_source pedestal (Some 0%Z) w h
              Hs Hn Hp H0) as [fig0 [sl0 [Hrun0 [_ [Himg0 _]]]]].
  destruct (make_tpf_figure_elements_ok tpf tpf_source pedestal None w h
              Hs Hn Hp HN) as [fig [sl [Hrun [_ [Himg _]]]]].
  eexists p, _, fig0, sl0, fig, sl. repeat split; try eassumption.
  - unfold nd_index0. unfold tpf_shape in Hs. rewrite Hs. reflexivity.
  - reflexivity.
  - intros img Hin. rewrite Himg in Hin. destruct Hin as [<- | []].
    simpl. unfold tpf_shape in Hs. now rewrite Hs.
  - rewrite Himg, Himg0. intros E.
    apply (f_equal (map (@shape float))) in E. simpl in E.
    unfold tpf_shape in Hs. rewrite Hs in E. discriminate.
Qed.

End FigureProperties.

(** C2, at a cube of two frames and no frame index: the builder indexes the
    cube with [None], so the image it draws is the whole cube under a new
    leading axis (shape (1, 2, 1, 1)), not the first frame (shape (1, 1))
    that the index 0 would draw. *)
Theorem default_frame_is_whole_cube (percentile : list float -> R -> float)
    (np_log10 : float -> float) :
  exists p first fig sl,
    effective_pedestal two_frame_tpf None = Ok p /\
    nd_index0 (tpf_flux two_frame_tpf) 0 = Ok first /\
    shape first = [1; 1] /\
    make_tpf_figure_elements percentile np_log10 two_frame_tpf None None
      None 370 340 = Ok (fig, sl) /\
    displayed_images fig
    = [add_scalar (nd_newaxis (tpf_flux two_frame_tpf)) p] /\
    (forall img, In img (displayed_images fig) -> shape img = [1; 2; 1; 1]) /\
    displayed_images fig <> [add_scalar first p].
Proof.
  destruct (@displayed_frame percentile np_log10 two_frame_tpf None None
              370 340 1 1 1)
    as [p [first [fig0 [sl0 [fig [sl H]]]]]];
    [reflexivity | reflexivity | discriminate | ].
  destruct H as [Hp [H0 [Hs0 [_ [Himg0 [Hrun [Himg [Hshape Hne]]]]]]]].
  exists p, first, fig, sl. rewrite <- Himg0. repeat split; assumption.
Qed.

(** *** The stretch callback *)

Lemma nth_error_update_at_same {A : Type} (f : A -> A) (l : list A) :
  forall i a, nth_error l i = Some a ->
              nth_error (update_at l i f) i = Some (f a).
Proof.
  induction l as [ | b l IH]; intros [ | i] a H; simpl in *;
    try discriminate.
  - now injection H as ->.
  - now apply IH.
Qed.


Lemma pow_2_1000_lt_max : (2 ^ 1000 < float_max_bound)%R.
Proof.
  unfold float_max_bound.
  assert (E : (2 ^ 1024 = 2 ^ 24 * 2 ^ 1000)%R) by exact (pow_add 2 24 1000).
  rewrite E.
  assert (H1 : (2 ^ 970 <= 2 ^ 1000)%R) by (apply Rle_pow; [lra | lia]).
  assert (H2 : (0 < 2 ^ 1000)%R) by (apply pow_lt; lra).
  assert (H3 : (2 ^ 24 = 16777216)%R) by (simpl; lra).
  rewrite H3. lra.
Qed.

Lemma pow_10_300_le : (10 ^ 300 <= 2 ^ 1000)%R.
Proof.
  assert (E1 : (10 ^ 300 = (10 ^ 3) ^ 100)%R) by exact (pow_mult 10 3 100).
  assert (E2 : (2 ^ 1000 = (2 ^ 10) ^ 100)%R) by exact (pow_mult 2 10 100).
  rewrite E1, E2. apply pow_incr. simpl. lra.
Qed.

Lemma Rpower_10_nat (n : nat) : Rpower 10 (INR n) = (10 ^ n)%R.
Proof. apply Rpower_pow. lra. Qed.

(** Between [10 ** -300] and [10 ** 300] the power neither overflows nor
    vanishes. *)
Lemma pow10_in_range (x : R) :
  (Rabs x <= 300)%R -> pow10 (Fin x) = Ok (Fin (Rpower 10 x)).
Proof.
  intros Hx.
  assert (Hb : (- 300 <= x <= 300)%R)
    by (unfold Rabs in Hx; destruct (Rcase_abs x); lra).
  clear Hx. rename Hb into Hx.
  assert (H300 : Rpower 10 300 = (10 ^ 300)%R).
  { rewrite <- (Rpower_10_nat 300). f_equal.
    rewrite INR_IZR_INZ. reflexivity. }
  assert (Hup : (Rpower 10 x <= 10 ^ 300)%R).
  { rewrite <- H300. apply Rle_Rpower; lra. }
  assert (Hlo : (/ 10 ^ 300 <= Rpower 10 x)%R).
  { rewrite <- H300, <- Rpower_Ropp. apply Rle_Rpower; lra. }
  pose proof pow_2_1000_lt_max as Hmax. pose proof pow_10_300_le as H10.
  assert (Hpos : (0 < 10 ^ 300)%R) by (apply pow_lt; lra).
  assert (Hmin : (float_min_bound < / 2 ^ 1000)%R).
  { unfold float_min_bound. apply Rinv_lt_contravar.
    - apply Rmult_lt_0_compat; apply pow_lt; lra.
    - apply Rlt_pow; [lra | lia]. }
  assert (Hinv : (/ 2 ^ 1000 <= / 10 ^ 300)%R)
    by (apply Rinv_le_contravar; assumption).
  unfold pow10.
  destruct (Rle_dec float_max_bound (Rpower 10 x)) as [H | _]; [lra | ].
  destruct (Rle_dec (Rpower 10 x) float_min_bound) as [H | _]; [lra | ].
  reflexivity.
Qed.




(** The callback evaluates the power, then assigns [high]; evaluates the
    other power, then assigns [low], on the mapper of the first renderer
    called [tpfimg]. *)
Lemma stretch_change_callback_runs (fig : Figure) (r : GlyphRenderer)
    (rs : list GlyphRenderer) (imgs : list (ndarray float)) (gx gy : Z)
    (dw dh : nat) (dil : bool) (cm : nat) (attr : string)
    (old new : float * float) (lo hi : float) :
  select fig "tpfimg" = r :: rs ->
  glyph r = Image imgs gx gy dw dh dil cm ->
  pow10 (fst new) = Ok lo ->
  pow10 (snd new) = Ok hi ->
  stretch_change_callback attr old new fig
  = Ok (set_mapper (set_mapper fig cm (set_high hi)) cm (set_low lo)).
Proof.
  intros Hsel Hg Hlo Hhi.
  assert (Hsel' : forall f, select (set_mapper fig cm f) "tpfimg" = r :: rs)
    by (intros f; exact Hsel).
  unfold stretch_change_callback. rewrite Hhi. simpl.
  rewrite Hsel. simpl. rewrite Hg. simpl. rewrite Hlo. simpl.
  rewrite Hsel'. simpl. rewrite Hg. reflexivity.
Qed.

Lemma slider_value_handler (sl : RangeSlider) (old new : float * float)
    (fig : Figure) :
  on_change sl = [("value", stretch_change_callback)] ->
  trigger sl "value" old new fig
  = stretch_change_callback "value" old new fig.
Proof.
  intros H. unfold trigger. rewrite H. simpl.
  destruct (stretch_change_callback "value" old new fig); reflexivity.
Qed.


Lemma restretched_mapper (ms : list LogColorMapper) (cm : nat)
    (m : LogColorMapper) (lo hi : float) :
  nth_error ms cm = Some m ->
  nth_error (update_at (update_at ms cm (set_high hi)) cm (set_low lo)) cm
  = Some {| palette := palette m; low := lo; high := hi |}.
Proof.
  intros Hm.
  erewrite nth_error_update_at_same;
    [ | apply nth_error_update_at_same; exact Hm ].
  reflexivity.
Qed.

Lemma image_mapper_inv (fig : Figure) (m : LogColorMapper) :
  image_mapper fig = Some m ->
  exists r rs imgs gx gy dw dh dil cm,
    select fig "tpfimg" = r :: rs /\
    glyph r = Image imgs gx gy dw dh dil cm /\
    nth_error (mappers fig) cm = Some m.
Proof.
  unfold image_mapper. intros Hm.
  destruct (select fig "tpfimg") as [ | r rs]; [discriminate | ].
  destruct (glyph r) as [imgs gx gy dw dh dil cm | ] eqn:Hg; [ | discriminate].
  exists r, rs, imgs, gx, gy, dw, dh, dil, cm. auto.
Qed.

(** The mapper of the image once both bounds are assigned. *)
Lemma image_mapper_restretched (fig : Figure) (r : GlyphRenderer)
    (rs : list GlyphRenderer) (imgs : list (ndarray float)) (gx gy : Z)
    (dw dh : nat) (dil : bool) (cm : nat) (m : LogColorMapper)
    (lo hi : float) :
  select fig "tpfimg" = r :: rs ->
  glyph r = Image imgs gx gy dw dh dil cm ->
  nth_error (mappers fig) cm = Some m ->
  image_mapper (set_mapper (set_mapper fig cm (set_high hi)) cm (set_low lo))
  = Some {| palette := palette m; low := lo; high := hi |}.
Proof.
  intros Hsel Hg Hm. unfold image_mapper.
  change (select (set_mapper (set_mapper fig cm (set_high hi)) cm
                    (set_low lo)) "tpfimg")
    with (select fig "tpfimg").
  rewrite Hsel, Hg. simpl. now apply restretched_mapper.
Qed.




(** *** Runs of the builder on the sample cubes *)

Ltac float_calc :=
  unfold Ok; cbn; unfold Rmin, Rmax;
  repeat match goal with
         | |- context [Rle_dec ?a ?b] => destruct (Rle_dec a b)
         | H : context [Rle_dec ?a ?b] |- _ => destruct (Rle_dec a b)
         end;
  first [ lra | exfalso; lra | f_equal; lra | do 2 f_equal; lra ].

Lemma log10_exact_apart (a b : R) :
  (0 < a < b)%R ->
  float_eqb (log10_exact (Fin a)) (log10_exact (Fin b)) = false.
Proof.
  intros [Ha Hab]. unfold log10_exact.
  destruct (Rlt_dec 0 a) as [_ | H]; [ | lra].
  destruct (Rlt_dec 0 b) as [_ | H]; [ | lra].
  simpl. destruct (Req_dec_T (ln a / ln 10) (ln b / ln 10)) as [E | _];
    [ | reflexivity].
  exfalso. pose proof (ln_increasing a b Ha Hab) as Hln.
  assert (H10 : (0 < ln 10)%R).
  { rewrite <- ln_1. apply ln_increasing; lra. }
  apply (Rmult_eq_compat_r (ln 10)) in E.
  unfold Rdiv in E. rewrite !Rmult_assoc, Rinv_l in E by lra. lra.
Qed.

(** With the smallest shifted value [a] for the low ranks and the largest
    [b] for the high ones, [0 < a < b], the builder returns a slider that
    runs from [log10 a] to [log10 b]. *)
Lemma accepted_run (tpf : TargetPixelFile) (tpf_source : option PixelSource)
    (pedestal : option float) (fiducial_frame : option Z) (w h : Z)
    (F nr nc : nat) (p : float) (frame : ndarray float) (a b : R) :
  tpf_shape tpf = [F; nr; nc] ->
  size (tpf_flux tpf) <> 0 ->
  effective_pedestal tpf pedestal = Ok p ->
  nd_frame (tpf_flux tpf) fiducial_frame = Ok frame ->
  fold_left float_fmin (data (add_scalar (tpf_flux tpf) p)) NaN = Fin a ->
  fold_left float_fmax (data (add_scalar (tpf_flux tpf) p)) NaN = Fin b ->
  (0 < a < b)%R ->
  exists fig sl,
    make_tpf_figure_elements extreme_percentile log10_exact tpf tpf_source
      pedestal fiducial_frame w h = Ok (fig, sl) /\
    slider_accepted sl = true.
Proof.
  intros Hs Hn Hp Hf Ha Hb Hab.
  destruct (make_tpf_figure_elements_ok extreme_percentile log10_exact tpf
              tpf_source pedestal fiducial_frame w h Hs Hn Hp Hf)
    as [fig [sl [Hrun [_ [_ [Hbounds _]]]]]].
  exists fig, sl. split; [exact Hrun | ].
  unfold stretch_bounds in Hbounds.
  destruct Hbounds as [_ [Hstart [Hend _]]].
  unfold slider_accepted. rewrite Hstart, Hend.
  unfold extreme_percentile.
  destruct (Rlt_dec 0.2 50) as [_ | H]; [ | lra].
  destruct (Rlt_dec 99.8 50) as [H | _]; [lra | ].
  rewrite Ha, Hb. now rewrite log10_exact_apart.
Qed.

Ltac sample_run tpf F nr nc b :=
  let frame := fresh "frame" in
  let Hf := fresh "Hf" in
  intros tpf_source fiducial_frame w h Hv;
  destruct (@nd_frame_valid float (tpf_flux tpf) F nr nc
              fiducial_frame eq_refl Hv) as [frame Hf];
  apply (@accepted_run tpf tpf_source None fiducial_frame w h
           F nr nc (Fin 0) frame 1 b);
  [ reflexivity | discriminate
  | unfold effective_pedestal, np_nanmin; float_calc
  | exact Hf
  | float_calc
  | float_calc
  | lra ].

Lemma two_frame_run :
  forall (tpf_source : option PixelSource) (fiducial_frame : option Z)
         (w h : Z),
    valid_frame 2 fiducial_frame ->
    exists fig sl,
      make_tpf_figure_elements extreme_percentile log10_exact two_frame_tpf
        tpf_source None fiducial_frame w h = Ok (fig, sl) /\
      slider_accepted sl = true.
Proof. sample_run two_frame_tpf 2 1 1 2%R. Qed.

Lemma example_run :
  forall (tpf_source : option PixelSource) (fiducial_frame : option Z)
         (w h : Z),
    valid_frame 1 fiducial_frame ->
    exists fig sl,
      make_tpf_figure_elements extreme_percentile log10_exact example_tpf
        tpf_source None fiducial_frame w h = Ok (fig, sl) /\
      slider_accepted sl = true.
Proof. sample_run example_tpf 1 2 3 6%R. Qed.

Lemma other_run :
  forall (tpf_source : option PixelSource) (fiducial_frame : option Z)
         (w h : Z),
    valid_frame 1 fiducial_frame ->
    exists fig sl,
      make_tpf_figure_elements extreme_percentile log10_exact other_tpf
        tpf_source None fiducial_frame w h = Ok (fig, sl) /\
      slider_accepted sl = true.
Proof. sample_run other_tpf 1 1 2 2%R. Qed.





Lemma figure_title_by_mission_witness :
  (exists fig sl,
      make_tpf_figure_elements extreme_percentile log10_exact two_frame_tpf
        None None (Some 0%Z) 370 340 = Ok (fig, sl) /\
      slider_accepted sl = true /\
      title fig = "Pixel data (CCD 13.2)") /\
  (exists fig sl,
      make_tpf_figure_elements extreme_percentile log10_exact example_tpf
        None None (Some 0%Z) 370 340 = Ok (fig, sl) /\
      slider_accepted sl = true /\
      title fig = "Pixel data (Camera 1.4)") /\
  (exists fig sl,
      make_tpf_figure_elements extreme_percentile log10_exact other_tpf
        None None (Some 0%Z) 370 340 = Ok (fig, sl) /\
      slider_accepted sl = true /\
      title fig = "Pixel data").
Proof.
  assert (Hv2 : valid_frame 2 (Some 0%Z)) by (simpl; lia).
  assert (Hv1 : valid_frame 1 (Some 0%Z)) by (simpl; lia).
  repeat split.
  - destruct (@two_frame_run None (Some 0%Z) 370%Z 340%Z Hv2)
      as [fig [sl [Hrun Hacc]]].
    destruct (@figure_title_by_mission extreme_percentile log10_exact
                two_frame_tpf None None (Some 0%Z) 370 340 fig sl Hrun Hacc)
      as [HK _].
    exists fig, sl. repeat split; [exact Hrun | exact Hacc | ].
    apply HK. left. reflexivity.
  - destruct (@example_run None (Some 0%Z) 370%Z 340%Z Hv1)
      as [fig [sl [Hrun Hacc]]].
    destruct (@figure_title_by_mission extreme_percentile log10_exact
                example_tpf None None (Some 0%Z) 370 340 fig sl Hrun Hacc)
      as [_ [HT _]].
    exists fig, sl. repeat split; [exact Hrun | exact Hacc | ].
    apply HT. reflexivity.
  - destruct (@other_run None (Some 0%Z) 370%Z 340%Z Hv1)
      as [fig [sl [Hrun Hacc]]].
    destruct (@figure_title_by_mission extreme_percentile log10_exact
                other_tpf None None (Some 0%Z) 370 340 fig sl Hrun Hacc)
      as [_ [_ HO]].
    exists fig, sl. repeat split; [exact Hrun | exact Hacc | ].
    apply HO; discriminate.
Defined.

(** * Further properties of the builders *)

(** ** The tool-tip table *)

(** What a returned table tells about the run that built it. *)
Lemma prepare_lightcurve_datasource_inv (isot : float -> string)
    (g : namespace) (lc : LightCurve) (src : LightCurveSource) :
  prepare_lightcurve_datasource isot g lc = Ok src ->
  exists qs,
    quality_loop g (lc_quality lc) [] = Ok qs /\
    src = {| time := lc_time lc;
             time_iso := if existsb is_nan (lc_time lc)
                         then repeat " " (length (lc_flux lc))
                         else map isot (lc_time lc);
             flux := lc_flux lc;
             cadence := lc_cadenceno lc;
             quality_code := lc_quality lc;
             quality := qs |}.
Proof.
  unfold prepare_lightcurve_datasource. rewrite human_time_spec.
  destruct (existsb is_nan (lc_time lc));
    [ | destruct (existsb is_inf (lc_time lc)) ];
    destruct (quality_loop g (lc_quality lc) []) as [e | qs]; simpl;
    intros H; try discriminate; injection H as <-; eauto.
Qed.

(** X1: when the name [KeplerQualityFlags] resolves to a decoder, the
    builder returns a table for every light curve whose times are blanked
    (one of them is NaN) or ordinary; and in every table it returns the
    time, flux, cadence and quality-code columns are the inputs, and the
    quality column has one string per bitmask, in order: a blank for no
    flag, the name for one flag, the names joined by "; " for several. *)
Theorem tooltip_table_with_decoder (isot : float -> string) (g : namespace)
    (decode : Z -> list string) (lc : LightCurve) :
  lookup g "KeplerQualityFlags" = Some (QualityFlags decode) ->
  (existsb is_nan (lc_time lc) = true \/ Forall ordinary_time (lc_time lc) ->
   exists src, prepare_lightcurve_datasource isot g lc = Ok src) /\
  forall src,
    prepare_lightcurve_datasource isot g lc = Ok src ->
    time src = lc_time lc /\ flux src = lc_flux lc /\
    cadence src = lc_cadenceno lc /\ quality_code src = lc_quality lc /\
    length (quality src) = length (lc_quality lc) /\
    forall i bitmask,
      nth_error (lc_quality lc) i = Some bitmask ->
      nth_error (quality src) i
      = Some match decode bitmask with
             | [] => " "
             | [flag] => flag
             | names => String.concat "; " names
             end.
Proof.
  intros Hg. split.
  - intros Ht. eexists.
    apply (prepare_lightcurve_datasource_bound isot g lc Hg).
    destruct Ht as [Ht | Ht]; [now left | right].
    now apply ordinary_times_finite.
  - intros src Hrun.
    destruct (prepare_lightcurve_datasource_inv _ _ _ Hrun) as [qs [Hq ->]].
    rewrite (quality_loop_bound _ _ Hg) in Hq. injection Hq as <-.
    cbn [time flux cadence quality_code quality]. repeat split.
    + apply length_map.
    + intros i bitmask Hi. rewrite nth_error_map, Hi.
      unfold option_map, flag_string.
      destruct (decode bitmask) as [ | a [ | b l]]; reflexivity.
Qed.

Lemma tooltip_table_with_decoder_witness :
  exists src,
    prepare_lightcurve_datasource sample_isot globals_with_decoder lc_flagged
    = Ok src /\
    quality src = [" "; "Safe mode"; "Attitude tweak; Safe mode"].
Proof.
  destruct (@tooltip_table_with_decoder sample_isot globals_with_decoder
              sample_decode lc_flagged eq_refl) as [Hruns Hcols].
  destruct Hruns as [src Hrun].
  { right. repeat constructor; simpl; unfold Rabs;
      match goal with |- context [Rcase_abs ?x] => destruct (Rcase_abs x) end;
      lra. }
  exists src. split; [exact Hrun | ].
  destruct (Hcols src Hrun) as [_ [_ [_ [_ [Hlen Hq]]]]].
  pose proof (Hq 0 0%Z eq_refl) as H0.
  pose proof (Hq 1 2%Z eq_refl) as H1.
  pose proof (Hq 2 3%Z eq_refl) as H2.
  destruct (quality src) as [ | q0 [ | q1 [ | q2 [ | q3 qs]]]];
    try discriminate Hlen.
  simpl in H0, H1, H2.
  injection H0 as ->. injection H1 as ->. injection H2 as ->.
  reflexivity.
Defined.

(** X2: whenever the builder returns a table, its [time_iso] column is
    all-or-nothing.  If no time is NaN it holds the ISO string of every
    time.  If some time is NaN every row is
    the blank " " and the rows are counted on the flux column, so the column
    is as long as [flux], not as long as [time]. *)
Theorem time_iso_rows (isot : float -> string) (g : namespace)
    (lc : LightCurve) (src : LightCurveSource) :
  prepare_lightcurve_datasource isot g lc = Ok src ->
  (existsb is_nan (lc_time lc) = false ->
   time_iso src = map isot (lc_time lc) /\
   length (time_iso src) = length (time src)) /\
  (existsb is_nan (lc_time lc) = true ->
   Forall (fun s => s = " ") (time_iso src) /\
   length (time_iso src) = length (flux src)).
Proof.
  intros Hrun.
  destruct (prepare_lightcurve_datasource_inv _ _ _ Hrun) as [qs [_ ->]].
  simpl. split; intros Hnan; rewrite Hnan; simpl.
  - split; [reflexivity | apply length_map].
  - split; [ | apply repeat_length].
    apply Forall_forall. intros s Hs. now apply repeat_spec in Hs.
Qed.

Lemma time_iso_rows_witness :
  exists src,
    prepare_lightcurve_datasource sample_isot module_globals lc_ragged
    = Ok src /\
    Forall (fun s => s = " ") (time_iso src) /\
    length (time_iso src) = length (flux src) /\
    length (time_iso src) = 1 /\ length (time src) = 3.
Proof.
  eexists. split; [reflexivity | ].
  destruct (@time_iso_rows sample_isot module_globals lc_ragged _ eq_refl)
    as [_ Hnan].
  destruct (Hnan eq_refl) as [Hall Hlen].
  repeat split; try assumption; reflexivity.
Defined.

(** ** The pixel overlay *)

(** X3: a cube without frames has no first frame: the overlay builder
    raises [IndexError] whatever the mask. *)
Theorem prepare_tpf_datasource_no_frames (tpf : TargetPixelFile)
    (aperture_mask : ndarray bool) (rest : list nat) :
  tpf_shape tpf = 0 :: rest ->
  prepare_tpf_datasource tpf aperture_mask = Raise IndexError.
Proof.
  unfold tpf_shape. intros Hs.
  unfold prepare_tpf_datasource, nd_frame, nd_index0. rewrite Hs.
  destruct (length (0 :: rest) <? 3); reflexivity.
Qed.

Lemma prepare_tpf_datasource_no_frames_witness :
  prepare_tpf_datasource frameless_tpf example_mask = Raise IndexError.
Proof.
  apply (@prepare_tpf_datasource_no_frames frameless_tpf example_mask [2; 3]).
  reflexivity.
Defined.

(** X4: a two-dimensional mask with no axis of length zero whose shape is
    not the shape of a frame is rejected: the overlay builder raises
    [IndexError] and returns no overlay. *)
Theorem prepare_tpf_datasource_mask_mismatch (tpf : TargetPixelFile)
    (aperture_mask : ndarray bool) (F R C mr mc : nat) :
  tpf_shape tpf = [S F; R; C] ->
  shape aperture_mask = [mr; mc] ->
  mr <> 0 -> mc <> 0 ->
  (mr, mc) <> (R, C) ->
  prepare_tpf_datasource tpf aperture_mask = Raise IndexError.
Proof.
  unfold tpf_shape. intros Hs Hm _ _ Hne.
  unfold prepare_tpf_datasource, nd_frame, nd_index0, tpf_shape.
  rewrite Hs. simpl.
  unfold nd_reshape, size. simpl.
  rewrite !Nat.mul_1_r, Nat.eqb_refl. simpl.
  unfold nd_mask_select. simpl. rewrite Hm. unfold shape_eqb.
  destruct (list_eq_dec Nat.eq_dec [R; C] [mr; mc]) as [E | _];
    [ | reflexivity].
  injection E as -> ->. now elim Hne.
Qed.

Lemma prepare_tpf_datasource_mask_mismatch_witness :
  prepare_tpf_datasource example_tpf transposed_mask = Raise IndexError.
Proof.
  apply (@prepare_tpf_datasource_mask_mismatch example_tpf transposed_mask
           0 2 3 3 2); [reflexivity | reflexivity | | | ]; discriminate.
Defined.

Lemma length_select_true {A : Type} (xs : list A) :
  forall ms, length ms <= length xs ->
             length (select_true xs ms) = count_true ms.
Proof.
  unfold count_true.
  induction xs as [ | x xs IH]; intros [ | m ms] Hlen; simpl in *;
    try reflexivity; try lia.
  destruct m; simpl; rewrite IH by lia; reflexivity.
Qed.

(** X5: the initial selection holds as many pixels as the mask has true
    cells, and each of its indices addresses a pixel of the frame:
    [0 <= k < R * C]. *)
Theorem preselected_count (tpf : TargetPixelFile)
    (aperture_mask : ndarray bool) (F R C : nat) :
  tpf_shape tpf = [S F; R; C] ->
  shape aperture_mask = [R; C] ->
  well_formed aperture_mask ->
  exists src,
    prepare_tpf_datasource tpf aperture_mask = Ok src /\
    length (indices (selected src)) = count_true (data aperture_mask) /\
    Forall (fun k => (0 <= k < Z.of_nat (R * C))%Z) (indices (selected src)).
Proof.
  intros Hs Hm Hwf. eexists. split.
  { exact (prepare_tpf_datasource_ok tpf aperture_mask Hs Hm). }
  simpl. split.
  - apply length_select_true.
    unfold well_formed, size in Hwf. rewrite Hm in Hwf. simpl in Hwf.
    rewrite length_map, length_seq. lia.
  - apply Forall_forall. intros k Hk. apply select_true_seq in Hk.
    destruct Hk as [t [Ht [-> _]]]. lia.
Qed.

Lemma preselected_count_witness :
  exists src,
    prepare_tpf_datasource example_tpf example_mask = Ok src /\
    length (indices (selected src)) = 3 /\
    Forall (fun k => (0 <= k < 6)%Z) (indices (selected src)).
Proof.
  apply (@preselected_count example_tpf example_mask 0 2 3); reflexivity.
Defined.

(** X6: the overlay is a function of the offsets, of the frame shape and
    of the mask only: two pixel files that agree on those get the same
    overlay, whatever their flux values and however many frames they
    have. *)
Theorem overlay_ignores_flux (tpf tpf' : TargetPixelFile)
    (aperture_mask : ndarray bool) (F F' R C : nat) :
  tpf_shape tpf = [S F; R; C] ->
  tpf_shape tpf' = [S F'; R; C] ->
  tpf_column tpf = tpf_column tpf' ->
  tpf_row tpf = tpf_row tpf' ->
  shape aperture_mask = [R; C] ->
  prepare_tpf_datasource tpf aperture_mask
  = prepare_tpf_datasource tpf' aperture_mask.
Proof.
  intros Hs Hs' Hc Hr Hm.
  rewrite (prepare_tpf_datasource_ok tpf aperture_mask Hs Hm).
  rewrite (prepare_tpf_datasource_ok tpf' aperture_mask Hs' Hm).
  now rewrite Hc, Hr.
Qed.

Lemma overlay_ignores_flux_witness :
  prepare_tpf_datasource two_frame_tpf {| shape := [1; 1]; data := [true] |}
  = prepare_tpf_datasource
      {| tpf_flux := {| shape := [1; 1; 1]; data := [NaN] |};
         tpf_column := 0; tpf_row := 0;
         tpf_mission := PyNone;
         tpf_module := PyNone; tpf_output := PyNone;
         tpf_camera := PyNone; tpf_ccd := PyNone |}
      {| shape := [1; 1]; data := [true] |}.
Proof.
  apply (@overlay_ignores_flux _ _ _ 1 0 1 1); reflexivity.
Defined.

(** ** The figure, its overlay and its slider *)

Lemma in_offsets (z0 z : Z) (n : nat) :
  In z (offsets z0 n) <-> (z0 <= z < z0 + Z.of_nat n)%Z.
Proof.
  unfold offsets. rewrite map_map, in_map_iff. split.
  - intros [j [<- Hj]]. apply in_seq in Hj. lia.
  - intros Hz. exists (Z.to_nat (z - z0)). split; [lia | ].
    apply in_seq. lia.
Qed.

Lemma centre_in_range (z0 z : Z) (n : nat) :
  (z0 <= z < z0 + Z.of_nat n)%Z ->
  (IZR z0 + 0.5 <= IZR z + 0.5 <= IZR (z0 + Z.of_nat n) - 0.5)%R.
Proof.
  intros [Hlo Hhi].
  assert (H1 : (IZR z0 <= IZR z)%R) by now apply IZR_le.
  assert (H2 : (IZR (z + 1) <= IZR (z0 + Z.of_nat n))%R)
    by (apply IZR_le; lia).
  rewrite plus_IZR in H2. lra.
Qed.

(** X7: the overlay fits the figure it is drawn on.  When the overlay of a
    pixel file is handed to the figure builder with the same pixel file,
    both builders return, and the offsets are small enough for the centres
    to be floats, the figure spans [column, column + C] by [row, row + R],
    and every pixel centre of the overlay lies at least half a pixel inside
    those ranges, so each unit rectangle drawn around a centre stays within
    the axes. *)
Theorem overlay_inside_figure (percentile : list float -> R -> float)
    (np_log10 : float -> float) (tpf : TargetPixelFile)
    (aperture_mask : ndarray bool) (pedestal : option float)
    (fiducial_frame : option Z) (w h : Z) (F nr nc : nat)
    (src : PixelSource) (fig : Figure) (sl : RangeSlider) :
  tpf_shape tpf = [S F; nr; nc] ->
  shape aperture_mask = [nr; nc] ->
  (- 2 ^ 52 <= tpf_column tpf /\ tpf_column tpf + Z.of_nat nc <= 2 ^ 52)%Z ->
  (- 2 ^ 52 <= tpf_row tpf /\ tpf_row tpf + Z.of_nat nr <= 2 ^ 52)%Z ->
  prepare_tpf_datasource tpf aperture_mask = Ok src ->
  make_tpf_figure_elements percentile np_log10 tpf (Some src) pedestal
    fiducial_frame w h = Ok (fig, sl) ->
  slider_accepted sl = true ->
  x_range fig = (tpf_column tpf, tpf_column tpf + Z.of_nat nc)%Z /\
  y_range fig = (tpf_row tpf, tpf_row tpf + Z.of_nat nr)%Z /\
  (forall v, In v (data (xx src)) ->
     exists r, v = Fin r /\
       (IZR (fst (x_range fig)) + 0.5 <= r
        <= IZR (snd (x_range fig)) - 0.5)%R) /\
  (forall v, In v (data (yy src)) ->
     exists r, v = Fin r /\
       (IZR (fst (y_range fig)) + 0.5 <= r
        <= IZR (snd (y_range fig)) - 0.5)%R).
Proof.
  intros Hs Hm _ _ Hsrc Hrun _.
  rewrite (prepare_tpf_datasource_ok tpf aperture_mask Hs Hm) in Hsrc.
  injection Hsrc as <-.
  destruct (make_tpf_figure_elements_inv _ _ _ _ _ _ _ _ Hrun)
    as [p [frame [ncols [nrows [_ [Hc [Hr [_ [_ [_ [_ [Hx [Hy _]]]]]]]]]]]]].
  rewrite Hs in Hc, Hr. injection Hc as <-. injection Hr as <-.
  rewrite Hx, Hy. simpl. repeat split; try reflexivity.
  - intros v Hin. apply in_map_iff in Hin. destruct Hin as [z [<- Hz]].
    apply in_flat_map in Hz. destruct Hz as [_ [_ Hz]].
    apply in_offsets in Hz. eexists. split; [reflexivity | ].
    now apply centre_in_range.
  - intros v Hin. apply in_map_iff in Hin. destruct Hin as [z [<- Hz]].
    apply in_flat_map in Hz. destruct Hz as [y [Hy' Hz]].
    apply repeat_spec in Hz. subst z.
    apply in_offsets in Hy'. eexists. split; [reflexivity | ].
    now apply centre_in_range.
Qed.

Lemma overlay_inside_figure_witness :
  exists src fig sl,
    prepare_tpf_datasource example_tpf example_mask = Ok src /\
    make_tpf_figure_elements extreme_percentile log10_exact example_tpf
      (Some src) None (Some 0%Z) 370 340 = Ok (fig, sl) /\
    x_range fig = (10, 13)%Z /\
    y_range fig = (20, 22)%Z /\
    (forall v, In v (data (xx src)) ->
       exists r, v = Fin r /\
         (IZR (fst (x_range fig)) + 0.5 <= r
          <= IZR (snd (x_range fig)) - 0.5)%R).
Proof.
  assert (Hv : valid_frame 1 (Some 0%Z)) by (simpl; lia).
  destruct (prepare_tpf_datasource example_tpf example_mask)
    as [e | src] eqn:Hsrc; [discriminate | ].
  destruct (@example_run (Some src) (Some 0%Z) 370%Z 340%Z Hv)
    as [fig [sl [Hrun Hacc]]].
  assert (Hc : (- 2 ^ 52 <= tpf_column example_tpf
                /\ tpf_column example_tpf + Z.of_nat 3 <= 2 ^ 52)%Z)
    by (simpl; lia).
  assert (Hr : (- 2 ^ 52 <= tpf_row example_tpf
                /\ tpf_row example_tpf + Z.of_nat 2 <= 2 ^ 52)%Z)
    by (simpl; lia).
  destruct (@overlay_inside_figure extreme_percentile log10_exact example_tpf
              example_mask None (Some 0%Z) 370 340 0 2 3 src fig sl
              eq_refl eq_refl Hc Hr Hsrc Hrun Hacc)
    as [Hx [Hy [Hxx _]]].
  exists src, fig, sl. repeat split; assumption.
Defined.

(** X8: on a figure the builder returns, with a slider whose ends differ,
    a change of the slider value to bounds between -300 and 300 runs the
    stretch callback, which is the handler the builder registered, and the
    colour bar follows the image: the bar refers to the same mapper object
    as the image, so after the change the mapper behind the colour bar
    carries the new bounds [10 ** new_low] and [10 ** new_high]. *)
Theorem colorbar_follows_stretch (percentile : list float -> R -> float)
    (np_log10 : float -> float) (tpf : TargetPixelFile)
    (tpf_source : option PixelSource) (pedestal : option float)
    (fiducial_frame : option Z) (w h : Z) (fig : Figure) (sl : RangeSlider)
    (old : float * float) (new_low new_high : R) :
  make_tpf_figure_elements percentile np_log10 tpf tpf_source pedestal
    fiducial_frame w h = Ok (fig, sl) ->
  slider_accepted sl = true ->
  (Rabs new_low <= 300)%R ->
  (Rabs new_high <= 300)%R ->
  on_change sl = [("value", stretch_change_callback)] /\
  exists fig',
    trigger sl "value" old (Fin new_low, Fin new_high) fig = Ok fig' /\
    length (right fig') = 1 /\
    forall cb, In cb (right fig') ->
      nth_error (mappers fig') (cb_color_mapper cb)
      = Some {| palette := "Viridis256";
                low := Fin (Rpower 10 new_low);
                high := Fin (Rpower 10 new_high) |} /\
      image_mapper fig' = nth_error (mappers fig') (cb_color_mapper cb).
Proof.
  intros Hrun _ Hlow Hhigh.
  destruct (make_tpf_figure_elements_inv _ _ _ _ _ _ _ _ Hrun)
    as [p [frame [ncols [nrows H]]]].
  destruct H as [_ [_ [_ [_ [_ [_ [Hb [_ [_ [Hr [Hcb Hon]]]]]]]]]]].
  destruct Hb as [_ [Hms _]].
  split; [exact Hon | ].
  assert (Hsel : exists rs, select fig "tpfimg"
                 = {| name := Some "tpfimg";
                      glyph := Image [add_scalar frame p] (tpf_column tpf)
                                     (tpf_row tpf) ncols nrows true 0 |}
                   :: rs).
  { unfold select. rewrite Hr. simpl. eauto. }
  destruct Hsel as [rs Hsel].
  eexists. split.
  { rewrite (slider_value_handler sl old _ fig Hon).
    exact (@stretch_change_callback_runs fig _ rs _ _ _ _ _ _ 0
             "value" old (Fin new_low, Fin new_high) _ _ Hsel eq_refl
             (@pow10_in_range new_low Hlow)
             (@pow10_in_range new_high Hhigh)). }
  simpl. split.
  { rewrite <- (length_map cb_color_mapper), Hcb. reflexivity. }
  intros cb Hin.
  assert (Hcm : cb_color_mapper cb = 0).
  { apply (in_map cb_color_mapper) in Hin. rewrite Hcb in Hin.
    destruct Hin as [<- | []]. reflexivity. }
  unfold image_mapper.
  change (select (set_mapper
                    (set_mapper fig 0 (set_high (Fin (Rpower 10 new_high))))
                    0 (set_low (Fin (Rpower 10 new_low)))) "tpfimg")
    with (select fig "tpfimg").
  rewrite Hsel, Hcm. simpl. rewrite Hms. simpl.
  unfold set_low, set_high. simpl. split; reflexivity.
Qed.

Lemma colorbar_follows_stretch_witness :
  exists fig sl fig',
    make_tpf_figure_elements extreme_percentile log10_exact example_tpf None
      None (Some 0%Z) 370 340 = Ok (fig, sl) /\
    trigger sl "value" (Fin 0, Fin 1) (Fin 1, Fin 3) fig = Ok fig' /\
    image_mapper fig'
    = Some {| palette := "Viridis256";
              low := Fin (Rpower 10 1); high := Fin (Rpower 10 3) |}.
Proof.
  assert (Hv : valid_frame 1 (Some 0%Z)) by (simpl; lia).
  assert (H1 : (Rabs 1 <= 300)%R)
    by (unfold Rabs; destruct (Rcase_abs 1); lra).
  assert (H3 : (Rabs 3 <= 300)%R)
    by (unfold Rabs; destruct (Rcase_abs 3); lra).
  destruct (@example_run None (Some 0%Z) 370%Z 340%Z Hv)
    as [fig [sl [Hrun Hacc]]].
  destruct (@colorbar_follows_stretch extreme_percentile log10_exact
              example_tpf None None (Some 0%Z) 370 340 fig sl
              (Fin 0, Fin 1) 1 3 Hrun Hacc H1 H3)
    as [_ [fig' [Htr [Hlen Hcb]]]].
  exists fig, sl, fig'. repeat split; [exact Hrun | exact Htr | ].
  destruct (right fig') as [ | cb [ | cb' cbs]]; try discriminate Hlen.
  destruct (Hcb cb (or_introl eq_refl)) as [Hm Himg].
  now rewrite Himg.
Defined.

Lemma update_at_update_at {A : Type} (f g : A -> A) (l : list A) :
  forall i, update_at (update_at l i f) i g
            = update_at l i (fun a => g (f a)).
Proof.
  induction l as [ | b l IH]; intros [ | i]; simpl; try reflexivity.
  now rewrite IH.
Qed.

Lemma update_at_ext {A : Type} (f g : A -> A) (l : list A) :
  (forall a, f a = g a) -> forall i, update_at l i f = update_at l i g.
Proof.
  intros Hfg. induction l as [ | b l IH]; intros [ | i]; simpl;
    try reflexivity.
  - now rewrite Hfg.
  - now rewrite IH.
Qed.

(** X9: within the range of floats the callback overwrites, it does not
    accumulate: after two changes of the slider to bounds between -300 and
    300 the figure is the one the second change alone would have produced,
    whatever the first change was. *)
Theorem stretch_change_callback_overwrites (fig : Figure)
    (m : LogColorMapper) (attr1 attr2 : string) (old1 old2 : float * float)
    (low1 high1 low2 high2 : R) :
  image_mapper fig = Some m ->
  (Rabs low1 <= 300)%R -> (Rabs high1 <= 300)%R ->
  (Rabs low2 <= 300)%R -> (Rabs high2 <= 300)%R ->
  exists fig1 fig2,
    stretch_change_callback attr1 old1 (Fin low1, Fin high1) fig = Ok fig1 /\
    stretch_change_callback attr2 old2 (Fin low2, Fin high2) fig1 = Ok fig2 /\
    stretch_change_callback attr2 old2 (Fin low2, Fin high2) fig = Ok fig2.
Proof.
  intros Hm Hl1 Hh1 Hl2 Hh2.
  destruct (@image_mapper_inv fig m Hm)
    as [r [rs [imgs [gx [gy [dw [dh [dil [cm [Hsel [Hg Hcm]]]]]]]]]]].
  do 2 eexists. split.
  { exact (@stretch_change_callback_runs fig r rs imgs gx gy dw dh dil cm
             attr1 old1 (Fin low1, Fin high1) _ _ Hsel Hg
             (@pow10_in_range low1 Hl1) (@pow10_in_range high1 Hh1)). }
  split.
  { apply (@stretch_change_callback_runs _ r rs imgs gx gy dw dh dil cm
             attr2 old2 (Fin low2, Fin high2) (Fin (Rpower 10 low2))
             (Fin (Rpower 10 high2)));
      [exact Hsel | exact Hg | exact (@pow10_in_range low2 Hl2)
      | exact (@pow10_in_range high2 Hh2)]. }
  rewrite (@stretch_change_callback_runs fig r rs imgs gx gy dw dh dil cm
             attr2 old2 (Fin low2, Fin high2) _ _ Hsel Hg
             (@pow10_in_range low2 Hl2) (@pow10_in_range high2 Hh2)).
  unfold set_mapper. simpl. do 2 f_equal.
  rewrite !update_at_update_at. apply update_at_ext.
  intros a. reflexivity.
Qed.

Lemma stretch_change_callback_overwrites_witness :
  exists fig1 fig2,
    stretch_change_callback "value" (Fin 0, Fin 1) (Fin 2, Fin 5)
      example_figure = Ok fig1 /\
    stretch_change_callback "value" (Fin 2, Fin 5) (Fin 1, Fin 3) fig1
    = Ok fig2 /\
    stretch_change_callback "value" (Fin 2, Fin 5) (Fin 1, Fin 3)
      example_figure = Ok fig2.
Proof.
  assert (H1 : (Rabs 1 <= 300)%R)
    by (unfold Rabs; destruct (Rcase_abs 1); lra).
  assert (H2 : (Rabs 2 <= 300)%R)
    by (unfold Rabs; destruct (Rcase_abs 2); lra).
  assert (H3 : (Rabs 3 <= 300)%R)
    by (unfold Rabs; destruct (Rcase_abs 3); lra).
  assert (H5 : (Rabs 5 <= 300)%R)
    by (unfold Rabs; destruct (Rcase_abs 5); lra).
  exact (@stretch_change_callback_overwrites example_figure
           {| palette := "Viridis256"; low := NaN; high := Fin 5 |}
           "value" "value" (Fin 0, Fin 1) (Fin 2, Fin 5) 2 5 1 3
           eq_refl H2 H5 H1 H3).
Defined.

(** X10: for bounds between -300 and 300 the values the callback leaves in
    the mapper are finite and strictly positive, as a logarithmic mapper
    needs. *)
Theorem stretched_bounds_positive (fig : Figure) (m : LogColorMapper)
    (attr : string) (old : float * float) (new_low new_high : R) :
  image_mapper fig = Some m ->
  (Rabs new_low <= 300)%R ->
  (Rabs new_high <= 300)%R ->
  exists fig' lo hi,
    stretch_change_callback attr old (Fin new_low, Fin new_high) fig
    = Ok fig' /\
    image_mapper fig'
    = Some {| palette := palette m; low := Fin lo; high := Fin hi |} /\
    (0 < lo)%R /\ (0 < hi)%R.
Proof.
  intros Hm Hlow Hhigh.
  destruct (@image_mapper_inv fig m Hm)
    as [r [rs [imgs [gx [gy [dw [dh [dil [cm [Hsel [Hg Hcm]]]]]]]]]]].
  eexists. exists (Rpower 10 new_low), (Rpower 10 new_high). split.
  { exact (@stretch_change_callback_runs fig r rs imgs gx gy dw dh dil cm
             attr old (Fin new_low, Fin new_high) _ _ Hsel Hg
             (@pow10_in_range new_low Hlow)
             (@pow10_in_range new_high Hhigh)). }
  split.
  { exact (@image_mapper_restretched fig r rs imgs gx gy dw dh dil cm m
             _ _ Hsel Hg Hcm). }
  split; unfold Rpower; apply exp_pos.
Qed.

Lemma stretched_bounds_positive_witness :
  exists fig' lo hi,
    stretch_change_callback "value" (Fin 0, Fin 1) (Fin (-2), Fin 3)
      example_figure = Ok fig' /\
    image_mapper fig'
    = Some {| palette := "Viridis256"; low := Fin lo; high := Fin hi |} /\
    (0 < lo)%R /\ (0 < hi)%R.
Proof.
  assert (H2 : (Rabs (-2) <= 300)%R)
    by (unfold Rabs; destruct (Rcase_abs (-2)); lra).
  assert (H3 : (Rabs 3 <= 300)%R)
    by (unfold Rabs; destruct (Rcase_abs 3); lra).
  exact (@stretched_bounds_positive example_figure
           {| palette := "Viridis256"; low := NaN; high := Fin 5 |}
           "value" (Fin 0, Fin 1) (-2) 3 eq_refl H2 H3).
Defined.

(** X12: a cube without flux values has no minimum: called without a
    pedestal the figure builder raises [ValueError] and builds nothing. *)
Theorem make_tpf_figure_elements_empty_cube
    (percentile : list float -> R -> float) (np_log10 : float -> float)
    (tpf : TargetPixelFile) (tpf_source : option PixelSource)
    (fiducial_frame : option Z) (w h : Z) :
  data (tpf_flux tpf) = [] ->
  make_tpf_figure_elements percentile np_log10 tpf tpf_source None
    fiducial_frame w h = Raise ValueError.
Proof.
  intros He.
  unfold make_tpf_figure_elements, effective_pedestal, np_nanmin.
  rewrite He. reflexivity.
Qed.

Lemma make_tpf_figure_elements_empty_cube_witness :
  make_tpf_figure_elements sample_percentile log10_exact frameless_tpf None
    None (Some 0%Z) 370 340 = Raise ValueError.
Proof.
  apply (@make_tpf_figure_elements_empty_cube sample_percentile log10_exact
           frameless_tpf None (Some 0%Z) 370 340).
  reflexivity.
Defined.

(** X13: a frame index outside [-F, F) is rejected: on a well-formed
    non-empty cube of [F] frames the figure builder raises [IndexError]. *)
Theorem fiducial_frame_out_of_range (percentile : list float -> R -> float)
    (np_log10 : float -> float) (tpf : TargetPixelFile)
    (tpf_source : option PixelSource) (pedestal : option float)
    (k w h : Z) (F nr nc : nat) :
  tpf_shape tpf = [F; nr; nc] ->
  well_formed (tpf_flux tpf) ->
  size (tpf_flux tpf) <> 0 ->
  (k < - Z.of_nat F \/ Z.of_nat F <= k)%Z ->
  make_tpf_figure_elements percentile np_log10 tpf tpf_source pedestal
    (Some k) w h = Raise IndexError.
Proof.
  intros Hs Hwf Hn Hk.
  destruct (effective_pedestal_runs tpf pedestal Hwf Hn) as [p Hp].
  unfold make_tpf_figure_elements. rewrite Hp. simpl.
  rewrite Hs. simpl.
  unfold np_nanpercentile. rewrite size_add_scalar.
  apply Nat.eqb_neq in Hn. rewrite Hn. simpl.
  unfold nd_frame, nd_index0. unfold tpf_shape in Hs. rewrite Hs. simpl.
  assert (Hr : ((- Z.of_nat F <=? k) && (k <? Z.of_nat F))%Z = false).
  { apply andb_false_iff. destruct Hk as [Hk | Hk];
      [left; apply Z.leb_gt | right; apply Z.ltb_ge]; lia. }
  rewrite Hr. reflexivity.
Qed.

Lemma fiducial_frame_out_of_range_witness :
  make_tpf_figure_elements sample_percentile log10_exact two_frame_tpf None
    None (Some 2%Z) 370 340 = Raise IndexError.
Proof.
  apply (@fiducial_frame_out_of_range sample_percentile log10_exact
           two_frame_tpf None None 2 370 340 2 1 1);
    [reflexivity | reflexivity | discriminate | right; simpl; lia].
Defined.

Lemma nd_frame_negative {A : Type} (a : ndarray A) (d : nat)
    (rest : list nat) (k : Z) :
  shape a = d :: rest ->
  (- Z.of_nat d <= k < 0)%Z ->
  nd_frame a (Some k) = nd_frame a (Some (k + Z.of_nat d)%Z).
Proof.
  intros Hs Hk. unfold nd_frame, nd_index0. rewrite Hs.
  destruct (length (d :: rest) <? 3); [reflexivity | ].
  assert (H1 : ((- Z.of_nat d <=? k) && (k <? Z.of_nat d))%Z = true).
  { apply andb_true_iff. split; [apply Z.leb_le | apply Z.ltb_lt]; lia. }
  assert (H2 : ((- Z.of_nat d <=? k + Z.of_nat d)
                && (k + Z.of_nat d <? Z.of_nat d))%Z = true).
  { apply andb_true_iff. split; [apply Z.leb_le | apply Z.ltb_lt]; lia. }
  rewrite H1, H2.
  assert (H3 : (k <? 0)%Z = true) by (apply Z.ltb_lt; lia).
  assert (H4 : (k + Z.of_nat d <? 0)%Z = false) by (apply Z.ltb_ge; lia).
  now rewrite H3, H4.
Qed.

(** X14: a negative frame index counts from the last frame: on a cube of
    [F] frames the index [k] with [-F <= k < 0] gives the figure and the
    slider that the index [k + F] gives. *)
Theorem fiducial_frame_negative (percentile : list float -> R -> float)
    (np_log10 : float -> float) (tpf : TargetPixelFile)
    (tpf_source : option PixelSource) (pedestal : option float)
    (k w h : Z) (F : nat) (rest : list nat) :
  tpf_shape tpf = F :: rest ->
  (- Z.of_nat F <= k < 0)%Z ->
  make_tpf_figure_elements percentile np_log10 tpf tpf_source pedestal
    (Some k) w h
  = make_tpf_figure_elements percentile np_log10 tpf tpf_source pedestal
      (Some (k + Z.of_nat F)%Z) w h.
Proof.
  intros Hs Hk. unfold make_tpf_figure_elements.
  destruct (effective_pedestal tpf pedestal) as [e | p]; [reflexivity | ].
  cbn -[nd_frame].
  destruct (tuple_get (tpf_shape tpf) 2) as [e | ncols]; [reflexivity | ].
  cbn -[nd_frame].
  destruct (tuple_get (tpf_shape tpf) 1) as [e | nrows]; [reflexivity | ].
  cbn -[nd_frame].
  destruct (unpack4 _) as [e | [[[vlo lo] hi] vhi]]; [reflexivity | ].
  cbn -[nd_frame]. now rewrite (nd_frame_negative (tpf_flux tpf) Hs Hk).
Qed.

Lemma fiducial_frame_negative_witness :
  make_tpf_figure_elements sample_percentile log10_exact two_frame_tpf None
    None (Some (-1)%Z) 370 340
  = make_tpf_figure_elements sample_percentile log10_exact two_frame_tpf None
      None (Some (-1 + 2)%Z) 370 340.
Proof.
  apply (@fiducial_frame_negative sample_percentile log10_exact two_frame_tpf
           None None (-1) 370 340 2 [1; 1]); [reflexivity | simpl; lia].
Defined.



Lemma fold_fmin_all_nan (xs : list float) :
  forallb is_nan xs = true -> fold_left float_fmin xs NaN = NaN.
Proof.
  induction xs as [ | x xs IH]; simpl; intros H; [reflexivity | ].
  apply andb_true_iff in H. destruct H as [Hx Hxs].
  destruct x; try discriminate. now apply IH.
Qed.

(** X16: a cube of undefined flux values does not stop the builder.
    Called without a pedestal on a non-empty cube in which every value is
    NaN it returns a figure; the pedestal it used is NaN and every value of
    the displayed image is NaN. *)
Theorem all_nan_cube (percentile : list float -> R -> float)
    (np_log10 : float -> float) (tpf : TargetPixelFile)
    (tpf_source : option PixelSource) (fiducial_frame : option Z)
    (w h : Z) (F nr nc : nat) :
  tpf_shape tpf = [F; nr; nc] ->
  well_formed (tpf_flux tpf) ->
  size (tpf_flux tpf) <> 0 ->
  valid_frame F fiducial_frame ->
  forallb is_nan (data (tpf_flux tpf)) = true ->
  exists fig sl,
    effective_pedestal tpf None = Ok NaN /\
    make_tpf_figure_elements percentile np_log10 tpf tpf_source None
      fiducial_frame w h = Ok (fig, sl) /\
    forall img v, In img (displayed_images fig) -> In v (data img) ->
                  v = NaN.
Proof.
  intros Hs Hwf Hn Hv Hnan.
  assert (Hp : effective_pedestal tpf None = Ok NaN).
  { unfold effective_pedestal, np_nanmin. unfold well_formed in Hwf.
    destruct (data (tpf_flux tpf)) as [ | x xs]; [simpl in Hwf; lia | ].
    simpl in Hnan. apply andb_true_iff in Hnan. destruct Hnan as [Hx Hxs].
    destruct x; try discriminate.
    rewrite (fold_fmin_all_nan _ Hxs). reflexivity. }
  destruct (nd_frame_valid _ _ Hs Hv) as [frame Hf].
  destruct (make_tpf_figure_elements_ok percentile np_log10 tpf tpf_source
              None fiducial_frame w h Hs Hn Hp Hf)
    as [fig [sl [Hrun [_ [Himg _]]]]].
  exists fig, sl. repeat split; try assumption.
  intros img v Hin Hv'. rewrite Himg in Hin. destruct Hin as [<- | []].
  simpl in Hv'. apply in_map_iff in Hv'. destruct Hv' as [x [<- _]].
  destruct x; reflexivity.
Qed.

Lemma all_nan_cube_witness :
  exists fig sl,
    effective_pedestal nan_tpf None = Ok NaN /\
    make_tpf_figure_elements sample_percentile log10_exact nan_tpf None None
      (Some 0%Z) 370 340 = Ok (fig, sl) /\
    forall img v, In img (displayed_images fig) -> In v (data img) ->
                  v = NaN.
Proof.
  apply (@all_nan_cube sample_percentile log10_exact nan_tpf None
           (Some 0%Z) 370 340 1 1 2);
    [reflexivity | reflexivity | discriminate | simpl; lia | reflexivity].
Defined.


